(** * todo-app-1: the React front end, as a shallow embedding

    Two source files are modelled:

    - [src/frontend/src/App.jsx]: the todo component without authentication
      (state [todos], [newTodo], [loading]; handlers [fetchTodos], [addTodo],
      [toggleTodo], [deleteTodo]);
    - the [App.jsx] of the OAuth variant ([AppContent]), which reads the
      session token from the URL and chooses between [Login] and [TodoApp].

    JavaScript values are modelled as far as the handlers inspect them.  An
    async handler is a finite tree of effects: synchronous actions (state
    setters, [console.error], ...) and suspension points ([await]), the
    network answering at each suspension. *)

From Stdlib Require Import List String Ascii ZArith NArith Bool Lia.
Import ListNotations.

Set Warnings "-register-all".
Local Open Scope bool_scope.

(** ** JavaScript data *)

Module JS.

(** A string is its sequence of UTF-16 code units. *)
Definition jsstring := list N.

(** An ASCII literal as a JavaScript string. *)
Definition js (s : string) : jsstring :=
  map N_of_ascii (list_ascii_of_string s).

Definition jsstring_eqb (a b : jsstring) : bool :=
  if list_eq_dec N.eq_dec a b then true else false.

(** ECMAScript WhiteSpace: TAB, VT, FF, ZWNBSP and the Space_Separator
    category. *)
Definition is_white_space (c : N) : bool :=
  ((c =? 0x9) || (c =? 0xB) || (c =? 0xC) || (c =? 0x20) || (c =? 0xA0)
   || (c =? 0x1680) || ((0x2000 <=? c) && (c <=? 0x200A))
   || (c =? 0x202F) || (c =? 0x205F) || (c =? 0x3000) || (c =? 0xFEFF))%N.

(** ECMAScript LineTerminator: LF, CR, LS, PS. *)
Definition is_line_terminator (c : N) : bool :=
  ((c =? 0xA) || (c =? 0xD) || (c =? 0x2028) || (c =? 0x2029))%N.

(** What [String.prototype.trim] strips. *)
Definition strippable (c : N) : bool :=
  is_white_space c || is_line_terminator c.

Fixpoint trimStart (s : jsstring) : jsstring :=
  match s with
  | [] => []
  | c :: rest => if strippable c then trimStart rest else s
  end.

Definition trimEnd (s : jsstring) : jsstring := rev (trimStart (rev s)).

(** [String.prototype.trim]. *)
Definition trim (s : jsstring) : jsstring := trimEnd (trimStart s).

(** A string made of strippable code units only (the empty one included). *)
Definition blank (s : jsstring) : bool := forallb strippable s.

(** Primitive values.  Numbers are the integer-valued ones. *)
Inductive prim : Type :=
| Undefined
| Null
| Bool (b : bool)
| Num (n : Z)
| Str (s : jsstring).

(** Values as [JSON.parse] builds them (plus [undefined]); the fields of an
    object are its own properties, first binding first. *)
Inductive value : Type :=
| Prim (p : prim)
| Arr (elems : list value)
| Obj (fields : list (jsstring * value)).

Coercion Prim : prim >-> value.

Inductive error : Type :=
| TypeError (message : string)
| SyntaxError (message : string)
| DOMException (name : string).

(** Completion of an expression or of a promise: a value or a thrown error. *)
Inductive result (A : Type) : Type :=
| Ok (a : A)
| Throw (e : error).

Arguments Ok {A} a.
Arguments Throw {A} e.

Definition bind {A B} (r : result A) (f : A -> result B) : result B :=
  match r with
  | Ok a => f a
  | Throw e => Throw e
  end.

(** ToBoolean. *)
Definition truthy_prim (p : prim) : bool :=
  match p with
  | Undefined | Null => false
  | Bool b => b
  | Num n => negb (n =? 0)%Z
  | Str s => match s with [] => false | _ => true end
  end.

Definition truthy (v : value) : bool :=
  match v with
  | Prim p => truthy_prim p
  | Arr _ | Obj _ => true
  end.

(** [a === b] on primitives. *)
Definition prim_strict_eq (a b : prim) : bool :=
  match a, b with
  | Undefined, Undefined => true
  | Null, Null => true
  | Bool x, Bool y => Bool.eqb x y
  | Num x, Num y => (x =? y)%Z
  | Str x, Str y => jsstring_eqb x y
  | _, _ => false
  end.

(** [v === p] for a primitive [p]: an array or an object never equals a
    primitive. *)
Definition strict_eq (v : value) (p : prim) : bool :=
  match v with
  | Prim q => prim_strict_eq q p
  | Arr _ | Obj _ => false
  end.

Fixpoint lookup (key : jsstring) (fields : list (jsstring * value)) : value :=
  match fields with
  | [] => Undefined
  | (k, v) :: rest => if jsstring_eqb k key then v else lookup key rest
  end.

(** [v.key] for a key that no prototype defines ([id], [completed], ...):
    reading a property of [null] or [undefined] throws; a primitive, or an
    array, has no such property. *)
Definition get (v : value) (key : jsstring) : result value :=
  match v with
  | Prim Undefined | Prim Null =>
      Throw (TypeError "Cannot read properties of null or undefined")
  | Prim _ | Arr _ => Ok (Prim Undefined)
  | Obj fields => Ok (lookup key fields)
  end.

Definition is_high_surrogate (c : N) : bool := ((0xD800 <=? c) && (c <=? 0xDBFF))%N.
Definition is_low_surrogate (c : N) : bool := ((0xDC00 <=? c) && (c <=? 0xDFFF))%N.

(** The string iterator: one string per code point, a surrogate pair kept
    together. *)
Fixpoint code_points (s : jsstring) : list jsstring :=
  match s with
  | [] => []
  | hi :: rest =>
      match rest with
      | lo :: rest' =>
          if is_high_surrogate hi && is_low_surrogate lo
          then [hi; lo] :: code_points rest'
          else [hi] :: code_points rest
      | [] => [[hi]]
      end
  end.

(** The elements [...v] spreads: arrays and strings are iterable, nothing
    else among these values is. *)
Definition iterate (v : value) : result (list value) :=
  match v with
  | Arr elems => Ok elems
  | Prim (Str s) => Ok (map (fun cp => Prim (Str cp)) (code_points s))
  | _ => Throw (TypeError "value is not iterable")
  end.

(** [xs.map(f)] where [f] may throw: elements are visited in order and the
    first exception ends the call. *)
Fixpoint array_map (f : value -> result value) (xs : list value)
  : result (list value) :=
  match xs with
  | [] => Ok []
  | x :: rest =>
      bind (f x) (fun y => bind (array_map f rest) (fun ys => Ok (y :: ys)))
  end.

(** [xs.filter(f)], likewise. *)
Fixpoint array_filter (f : value -> result bool) (xs : list value)
  : result (list value) :=
  match xs with
  | [] => Ok []
  | x :: rest =>
      bind (f x) (fun keep =>
      bind (array_filter f rest) (fun ys =>
      Ok (if keep then x :: ys else ys)))
  end.

(** [v.map(f)]: only an array has a callable [map]. *)
Definition method_map (v : value) (f : value -> result value) : result value :=
  match v with
  | Arr elems => bind (array_map f elems) (fun ys => Ok (Arr ys))
  | _ => Throw (TypeError "map is not a function")
  end.

(** [v.filter(f)]. *)
Definition method_filter (v : value) (f : value -> result bool) : result value :=
  match v with
  | Arr elems => bind (array_filter f elems) (fun ys => Ok (Arr ys))
  | _ => Throw (TypeError "filter is not a function")
  end.

(** A value whose properties can be read. *)
Definition coercible (v : value) : bool :=
  match v with
  | Prim Undefined | Prim Null => false
  | _ => true
  end.

End JS.

(** ** The todo component ([src/frontend/src/App.jsx]) *)

Module App.
Import JS.

(** The three [useState] cells.  [todos] holds whatever was last passed to
    [setTodos], which for [fetchTodos] is the parsed body as it came. *)
Record state : Type := {
  todos : value;
  newTodo : jsstring;
  loading : bool
}.

(** ['/api/todos'] and the template [`/api/todos/${id}`]. *)
Inductive url : Type :=
| ApiTodos
| ApiTodo (id : prim).

Inductive http_method : Type := GET | POST | PUT | DELETE.

(** The text [JSON.stringify(v)] produces, named by the value it serialises. *)
Inductive body_text : Type :=
| JSON_stringify (v : value).

Record request : Type := {
  req_url : url;
  method : http_method;
  headers : list (string * string);
  body : option body_text
}.

(** A response: its status line and what [response.json()] settles to. *)
Record response : Type := {
  status : Z;
  json : result value
}.

(** Synchronous effects of the handlers. *)
Inductive action : Type :=
| preventDefault
| setTodos (v : value)
| setNewTodo (s : jsstring)
| setLoading (b : bool)
| console_error (label : string) (e : error).

(** An async function body: actions, and [await]s where the function is
    suspended until the promise settles. *)
Inductive prog (A : Type) : Type :=
| Return (a : A)
| Do (act : action) (k : prog A)
| AwaitFetch (req : request) (k : result response -> prog A)
| AwaitJson (resp : response) (k : result value -> prog A).

Arguments Return {A} a.
Arguments Do {A} act k.
Arguments AwaitFetch {A} req k.
Arguments AwaitJson {A} resp k.

Fixpoint pbind {A B} (p : prog A) (f : A -> prog B) : prog B :=
  match p with
  | Return a => f a
  | Do act k => Do act (pbind k f)
  | AwaitFetch req k => AwaitFetch req (fun r => pbind (k r) f)
  | AwaitJson resp k => AwaitJson resp (fun r => pbind (k r) f)
  end.

(** Sequencing of statements that may throw. *)
Definition seq {A B} (p : prog (result A)) (f : A -> prog (result B))
  : prog (result B) :=
  pbind p (fun r => match r with
                    | Ok a => f a
                    | Throw e => Return (Throw e)
                    end).

Definition try_catch {A} (p : prog (result A)) (h : error -> prog (result A))
  : prog (result A) :=
  pbind p (fun r => match r with
                    | Ok a => Return (Ok a)
                    | Throw e => h e
                    end).

Definition try_finally {A} (p : prog (result A)) (f : prog (result unit))
  : prog (result A) :=
  pbind p (fun r => seq f (fun _ => Return r)).

Declare Scope js_scope.
Delimit Scope js_scope with js.
Notation "x <- p ;; q" := (seq p (fun x => q))
  (at level 100, p at next level, right associativity) : js_scope.
Notation "p ;; q" := (seq p (fun _ => q))
  (at level 100, right associativity) : js_scope.

Definition perform (a : action) : prog (result unit) := Do a (Return (Ok tt)).

(** [await fetch(req)]. *)
Definition fetch (req : request) : prog (result response) :=
  AwaitFetch req Return.

(** [await response.json()]. *)
Definition response_json (resp : response) : prog (result value) :=
  AwaitJson resp Return.

(** An expression evaluated in place. *)
Definition eval {A} (r : result A) : prog (result A) := Return r.

Definition handler : Type := prog (result unit).

Local Open Scope js_scope.
Local Open Scope string_scope.

Definition json_headers : list (string * string) :=
  [("Content-Type", "application/json")].

(** [fetch('/api/todos')]: no options, hence a GET without headers or body. *)
Definition list_request : request :=
  {| req_url := ApiTodos; method := GET; headers := []; body := None |}.

Definition fetchTodos : handler :=
  try_catch
    (response <- fetch list_request ;;
     data <- response_json response ;;
     perform (setTodos data))
    (fun error => perform (console_error "Error fetching todos:" error)).

(** The effect of [useEffect(..., [])], run once when the component mounts. *)
Definition mount_effect : handler := fetchTodos.

(** The handlers close over the state of the render that created them.
    An [id] is a primitive (a number or a string in the API): an object
    would be compared by reference, which these values do not carry. *)
Section Handlers.
Variable c : state.

Definition add_request : request :=
  {| req_url := ApiTodos; method := POST; headers := json_headers;
     body := Some (JSON_stringify
                     (Obj [(js "title", Prim (Str (newTodo c)));
                           (js "completed", Prim (Bool false))])) |}.

Definition addTodo : handler :=
  perform preventDefault ;;
  if negb (truthy (Str (trim (newTodo c)))) then Return (Ok tt) else
  perform (setLoading true) ;;
  try_finally
    (try_catch
       (response <- fetch add_request ;;
        data <- response_json response ;;
        elems <- eval (iterate (todos c)) ;;
        perform (setTodos (Arr (elems ++ [data]))) ;;
        perform (setNewTodo []))
       (fun error => perform (console_error "Error adding todo:" error)))
    (perform (setLoading false)).

Definition toggle_request (id : prim) (completed : value) : request :=
  {| req_url := ApiTodo id; method := PUT; headers := json_headers;
     body := Some (JSON_stringify
                     (Obj [(js "completed",
                            Prim (Bool (negb (truthy completed))))])) |}.

Definition toggleTodo (id : prim) (completed : value) : handler :=
  try_catch
    (response <- fetch (toggle_request id completed) ;;
     updatedTodo <- response_json response ;;
     mapped <- eval (method_map (todos c) (fun todo =>
                 bind (get todo (js "id")) (fun todo_id =>
                 Ok (if strict_eq todo_id id then updatedTodo else todo)))) ;;
     perform (setTodos mapped))
    (fun error => perform (console_error "Error updating todo:" error)).

Definition delete_request (id : prim) : request :=
  {| req_url := ApiTodo id; method := DELETE; headers := []; body := None |}.

Definition deleteTodo (id : prim) : handler :=
  try_catch
    (_ <- fetch (delete_request id) ;;
     kept <- eval (method_filter (todos c) (fun todo =>
               bind (get todo (js "id")) (fun todo_id =>
               Ok (negb (strict_eq todo_id id))))) ;;
     perform (setTodos kept))
    (fun error => perform (console_error "Error deleting todo:" error)).

End Handlers.

(** The form of the rendered component: the text input and the submit
    button. *)
Record form_view : Type := {
  input_value : jsstring;
  input_disabled : bool;
  button_disabled : bool;
  button_label : string
}.

Definition render_form (s : state) : form_view :=
  {| input_value := newTodo s;
     input_disabled := loading s;
     button_disabled := loading s;
     button_label := if loading s then "Adding..." else "Add" |}.

(** *** Running a handler *)

Inductive event : Type :=
| Did (act : action)
| Sent (req : request)
| Settled (r : result response)
| Reading (resp : response)
| Parsed (r : result value).

(** The trace of a handler against a network [net], which settles each
    request it is sent. *)
Fixpoint run {A} (net : request -> result response) (p : prog A)
  : list event * A :=
  match p with
  | Return a => ([], a)
  | Do act k =>
      let (tr, a) := run net k in (Did act :: tr, a)
  | AwaitFetch req k =>
      let (tr, a) := run net (k (net req)) in
      (Sent req :: Settled (net req) :: tr, a)
  | AwaitJson resp k =>
      let (tr, a) := run net (k (json resp)) in
      (Reading resp :: Parsed (json resp) :: tr, a)
  end.

Definition trace (net : request -> result response) (h : handler) : list event :=
  fst (run net h).

Definition apply (s : state) (ev : event) : state :=
  match ev with
  | Did (setTodos v) =>
      {| todos := v; newTodo := newTodo s; loading := loading s |}
  | Did (setNewTodo t) =>
      {| todos := todos s; newTodo := t; loading := loading s |}
  | Did (setLoading b) =>
      {| todos := todos s; newTodo := newTodo s; loading := b |}
  | _ => s
  end.

(** The component state once the events of [tr] have happened. *)
Definition replay (s : state) (tr : list event) : state := fold_left apply tr s.

(** The handler is suspended right after these events. *)
Definition suspends (ev : event) : bool :=
  match ev with
  | Sent _ | Reading _ => true
  | _ => false
  end.

(** The component state at each suspension of the handler, in order. *)
Fixpoint suspensions (s : state) (tr : list event) : list state :=
  match tr with
  | [] => []
  | ev :: rest =>
      let s' := apply s ev in
      if suspends ev then s' :: suspensions s' rest else suspensions s' rest
  end.

Fixpoint requests (tr : list event) : list request :=
  match tr with
  | [] => []
  | Sent req :: rest => req :: requests rest
  | _ :: rest => requests rest
  end.

Fixpoint logged (tr : list event) : list (string * error) :=
  match tr with
  | [] => []
  | Did (console_error label e) :: rest => (label, e) :: logged rest
  | _ :: rest => logged rest
  end.

Fixpoint todos_updates (tr : list event) : list value :=
  match tr with
  | [] => []
  | Did (setTodos v) :: rest => v :: todos_updates rest
  | _ :: rest => todos_updates rest
  end.

(** The test [todo.id === id] on an entry whose properties can be read. *)
Definition has_id (todo : value) (id : prim) : bool :=
  match get todo (js "id") with
  | Ok todo_id => strict_eq todo_id id
  | Throw _ => false
  end.

(** What the [try] block of [fetchTodos], [addTodo] and [toggleTodo] gets
    from the network: the parsed body, or the error of [fetch] or of
    [response.json()]. *)
Definition received (r : result response) : result value :=
  bind r json.

(** *** Sample data *)

Definition todo_record (id : Z) (title : string) (completed : bool) : value :=
  Obj [(js "id", Prim (Num id));
       (js "title", Prim (Str (js title)));
       (js "completed", Prim (Bool completed))].

Definition milk : value := todo_record 1 "Buy milk" false.
Definition eggs : value := todo_record 2 "Buy eggs" true.
Definition bread : value := todo_record 3 "Buy bread" false.

(** The input holds a space, a tab and a no-break space. *)
Definition blank_draft : state :=
  {| todos := Arr [milk; eggs]; newTodo := [0x20; 0x9; 0xA0]%N;
     loading := false |}.

Definition bread_draft : state :=
  {| todos := Arr [milk; eggs]; newTodo := js "Buy bread"; loading := false |}.

(** No connection: every [fetch] rejects. *)
Definition offline (_ : request) : result response :=
  Throw (TypeError "Failed to fetch").

(** A gateway answering with a page that is not JSON. *)
Definition garbled (_ : request) : result response :=
  Ok {| status := 502; json := Throw (SyntaxError "Unexpected token <") |}.

(** A server answering every request with that status and JSON body. *)
Definition answering (code : Z) (data : value) (_ : request)
  : result response :=
  Ok {| status := code; json := Ok data |}.

(** *** The rest of the component: typing, and the rendered list *)

(** [onChange={(e) => setNewTodo(e.target.value)}] on the text input, [text]
    being the value of the input. *)
Definition onChange (text : jsstring) : handler := perform (setNewTodo text).

(** [v.length]: arrays and strings have one, an object may have an own
    property of that name. *)
Definition get_length (v : value) : result value :=
  match v with
  | Prim Undefined | Prim Null =>
      Throw (TypeError "Cannot read properties of null or undefined")
  | Arr elems => Ok (Prim (Num (Z.of_nat (List.length elems))))
  | Prim (Str t) => Ok (Prim (Num (Z.of_nat (List.length t))))
  | Prim _ => Ok (Prim Undefined)
  | Obj fields => Ok (lookup (js "length") fields)
  end.

(** One [<div className="todo-item">]: its key, the [checked] of the
    checkbox, the class and the text of the span, and what the two closures
    pass on: [toggleTodo(todo.id, todo.completed)] and [deleteTodo(todo.id)]. *)
Record row : Type := {
  row_key : value;
  checkbox_checked : value;
  span_className : string;
  span_text : value;
  onChange_call : value * value;
  onClick_call : value
}.

Definition render_row (todo : value) : result row :=
  bind (get todo (js "id")) (fun todo_id =>
  bind (get todo (js "completed")) (fun completed =>
  bind (get todo (js "title")) (fun title =>
  Ok {| row_key := todo_id;
        checkbox_checked := completed;
        span_className := if truthy completed then "completed" else "";
        span_text := title;
        onChange_call := (todo_id, completed);
        onClick_call := todo_id |}))).

(** [todos.map((todo) => <div ...>)] on the elements of an array. *)
Fixpoint render_rows (xs : list value) : result (list row) :=
  match xs with
  | [] => Ok []
  | x :: rest =>
      bind (render_row x) (fun r =>
      bind (render_rows rest) (fun rs => Ok (r :: rs)))
  end.

(** The content of [<div className="todo-list">]. *)
Inductive list_view : Type :=
| empty_state
| rows (items : list row).

Definition render_list (v : value) : result list_view :=
  bind (get_length v) (fun len =>
  if strict_eq len (Num 0) then Ok empty_state
  else match v with
       | Arr elems => bind (render_rows elems) (fun items => Ok (rows items))
       | _ => Throw (TypeError "map is not a function")
       end).

(** What [App] returns: the form and the list, or the exception of the
    render. *)
Record view : Type := {
  view_form : form_view;
  view_list : list_view
}.

Definition render (s : state) : result view :=
  bind (render_list (todos s)) (fun l =>
  Ok {| view_form := render_form s; view_list := l |}).

(** A state whose list can be rendered and handled row by row: an array
    without [null] or [undefined] entries. *)
Definition well_formed (v : value) : bool :=
  match v with
  | Arr elems => forallb coercible elems
  | _ => false
  end.

(** The body FastAPI sends with a 404. *)
Definition not_found_body : value :=
  Obj [(js "detail", Prim (Str (js "Todo not found")))].

End App.

(** ** The component of the OAuth variant ([AppContent]) *)

Module AuthApp.
Import JS.

(** What [useAuth()] hands to the component, [login] apart: [login] comes
    from the auth context, and calling it is an effect here. *)
Record auth : Type := {
  user : value;
  loading : bool
}.

(** [window.location]; [search] is the query string as [URLSearchParams]
    reads it, a sequence of name-value pairs in their order. *)
Record location : Type := {
  pathname : jsstring;
  search : list (jsstring * jsstring);
  hash : jsstring
}.

(** The window of an http(s) document whose base URL is its own URL.
    [names_own_origin] is the browser's reading of an authority (the
    [user:password@host:port] part of a URL): whether the URL parser reads it
    as the credentials, host and port of this document's URL.  The model asks
    it only where a path is read as a network-path reference. *)
Record window : Type := {
  window_location : location;
  document_title : jsstring;
  names_own_origin : jsstring -> bool
}.

(** [urlParams.get(name)]: the value of the first pair of that name, or
    [null]. *)
Fixpoint URLSearchParams_get (params : list (jsstring * jsstring))
  (name : jsstring) : prim :=
  match params with
  | [] => Null
  | (k, v) :: rest =>
      if jsstring_eqb k name then Str v else URLSearchParams_get rest name
  end.

Inductive effect : Type :=
| login (token : prim)
| history_replaceState (data : value) (title url : jsstring).

(** The body of [useEffect(..., [])] in [AppContent], run once on mount. *)
Definition mount_effect (w : window) : list effect :=
  let urlParams := search (window_location w) in
  let token := URLSearchParams_get urlParams (js "token") in
  if truthy token
  then [login token;
        history_replaceState (Obj []) (document_title w)
          (pathname (window_location w))]
  else [].

Definition slash : N := 0x2F%N.

(** A URL reference that begins with two slashes names an authority, not a
    path of the current one. *)
Definition network_path (url : jsstring) : bool :=
  match url with
  | a :: b :: _ => ((a =? slash) && (b =? slash))%N
  | _ => false
  end.

(** The URL parser skips every slash before the authority of an http(s)
    URL. *)
Fixpoint skip_slashes (url : jsstring) : jsstring :=
  match url with
  | [] => []
  | c :: rest => if (c =? slash)%N then skip_slashes rest else url
  end.

(** The text before the first slash, and the text from that slash on. *)
Fixpoint until_slash (url : jsstring) : jsstring * jsstring :=
  match url with
  | [] => ([], [])
  | c :: rest =>
      if (c =? slash)%N then ([], url)
      else let (before, from) := until_slash rest in (c :: before, from)
  end.

(** The authority a network-path reference names. *)
Definition authority_of (url : jsstring) : jsstring :=
  fst (until_slash (skip_slashes url)).

(** The path that follows that authority; the empty one is the root. *)
Definition path_after_authority (url : jsstring) : jsstring :=
  match snd (until_slash (skip_slashes url)) with
  | [] => [slash]
  | path => path
  end.

(** What [history.replaceState(data, title, url)] makes of a [url] that is the
    pathname of an http(s) document (so it begins with a slash and holds no
    query or fragment), resolved against that document:

    - a path with a single leading slash stays this path on the same origin,
      without query string or fragment;
    - a path with two leading slashes is a network-path reference: the
      authority it names is parsed, and unless it is there and names the
      document's own origin the call throws a [SecurityError]; when it does,
      the new URL has the path after the authority. *)
Definition resolve (w : window) (url : jsstring) : result location :=
  if network_path url then
    match authority_of url with
    | [] => Throw (DOMException "SecurityError")
    | authority =>
        if names_own_origin w authority
        then Ok {| pathname := path_after_authority url;
                   search := []; hash := [] |}
        else Throw (DOMException "SecurityError")
    end
  else Ok {| pathname := url; search := []; hash := [] |}.

(** One call of the effect: [login] leaves the window alone, [replaceState]
    puts the resolved URL in the address bar or throws. *)
Definition perform (w : window) (e : effect) : result window :=
  match e with
  | login _ => Ok w
  | history_replaceState _ _ url =>
      bind (resolve w url) (fun l =>
      Ok {| window_location := l;
            document_title := document_title w;
            names_own_origin := names_own_origin w |})
  end.

(** The calls of the effect in order, up to the first that throws: the window
    they leave, and how the effect ends. *)
Fixpoint perform_all (w : window) (es : list effect) : window * result unit :=
  match es with
  | [] => (w, Ok tt)
  | e :: rest =>
      match perform w e with
      | Ok w' => perform_all w' rest
      | Throw err => (w, Throw err)
      end
  end.

Definition after_mount (w : window) : window :=
  fst (perform_all w (mount_effect w)).

Definition mount_completion (w : window) : result unit :=
  snd (perform_all w (mount_effect w)).

Fixpoint logins (es : list effect) : list prim :=
  match es with
  | [] => []
  | login token :: rest => token :: logins rest
  | _ :: rest => logins rest
  end.

(** A query string has a parameter of that name. *)
Definition has_param (params : list (jsstring * jsstring)) (name : jsstring)
  : bool :=
  existsb (fun kv => jsstring_eqb (fst kv) name) params.

(** What [AppContent] returns inside [<div className="App">]. *)
Inductive view : Type :=
| Loading_indicator
| TodoApp
| Login.

Definition AppContent (ctx : auth) : view :=
  if loading ctx then Loading_indicator
  else if truthy (user ctx) then TodoApp else Login.

(** *** Sample data *)

(** The samples are documents at [http://localhost]; of the authorities
    they use, only [localhost] names that origin. *)
Definition at_localhost (authority : jsstring) : bool :=
  jsstring_eqb authority (js "localhost").

(** The address [/?token=]: a token parameter whose value is empty. *)
Definition window_with_empty_token : window :=
  {| window_location :=
       {| pathname := js "/"; search := [(js "token", [])]; hash := [] |};
     document_title := js "Todo App";
     names_own_origin := at_localhost |}.

(** The address [/?next=home&token=abc.def#top], after the OAuth redirect. *)
Definition window_after_redirect : window :=
  {| window_location :=
       {| pathname := js "/";
          search := [(js "next", js "home"); (js "token", js "abc.def")];
          hash := js "#top" |};
     document_title := js "Todo App";
     names_own_origin := at_localhost |}.

(** The address [http://localhost//evil.example/x?token=abc]. *)
Definition window_at_foreign_path : window :=
  {| window_location :=
       {| pathname := js "//evil.example/x";
          search := [(js "token", js "abc")]; hash := [] |};
     document_title := js "Todo App";
     names_own_origin := at_localhost |}.

(** The address [http://localhost//localhost/x?token=abc]. *)
Definition window_at_own_path : window :=
  {| window_location :=
       {| pathname := js "//localhost/x";
          search := [(js "token", js "abc")]; hash := [] |};
     document_title := js "Todo App";
     names_own_origin := at_localhost |}.

Definition alice : value :=
  Obj [(js "id", Prim (Str (js "1084")));
       (js "name", Prim (Str (js "Alice")));
       (js "email", Prim (Str (js "alice@example.org")))].

End AuthApp.

(** * Properties *)

Import JS.

(** ** Strings *)

Lemma jsstring_eqb_eq (a b : jsstring) : jsstring_eqb a b = true <-> a = b.
Proof.
  unfold jsstring_eqb. destruct (list_eq_dec N.eq_dec a b); split; congruence.
Qed.

Lemma blank_app (a b : jsstring) : blank (a ++ b) = blank a && blank b.
Proof. unfold blank. apply forallb_app. Qed.

Lemma blank_rev (s : jsstring) : blank (rev s) = blank s.
Proof.
  induction s as [|c s IH]; simpl; [reflexivity|].
  rewrite blank_app, IH. simpl. rewrite andb_true_r. apply andb_comm.
Qed.

Lemma trimStart_nil_iff (s : jsstring) : trimStart s = [] <-> blank s = true.
Proof.
  induction s as [|c s IH]; simpl.
  - split; reflexivity.
  - destruct (strippable c); simpl; [exact IH|].
    split; discriminate.
Qed.

(** [trimStart] removes a blank prefix and nothing else. *)
Lemma trimStart_split (s : jsstring) :
  exists pre, s = pre ++ trimStart s /\ blank pre = true.
Proof.
  induction s as [|c s [pre [Hs Hpre]]]; simpl.
  - exists []. split; reflexivity.
  - destruct (strippable c) eqn:Hc.
    + exists (c :: pre). simpl. rewrite Hc, Hpre. split; [f_equal; exact Hs|reflexivity].
    + exists []. split; reflexivity.
Qed.

(** [trim] leaves the empty string exactly for blank input. *)
Lemma trim_nil_iff (s : jsstring) : trim s = [] <-> blank s = true.
Proof.
  unfold trim, trimEnd. split.
  - intros H.
    assert (Ht : blank (trimStart s) = true).
    { rewrite <- blank_rev. apply trimStart_nil_iff.
      rewrite <- (rev_involutive (trimStart (rev (trimStart s)))), H.
      reflexivity. }
    destruct (trimStart_split s) as [pre [Hs Hpre]].
    rewrite Hs, blank_app, Hpre, Ht. reflexivity.
  - intros H. apply trimStart_nil_iff in H. rewrite H. reflexivity.
Qed.

(** The test [!s.trim()] of a string [s]. *)
Lemma trim_falsy_iff_blank (s : jsstring) :
  negb (truthy (Prim (Str (trim s)))) = blank s.
Proof.
  simpl. destruct (trim s) eqn:Ht.
  - symmetry. apply trim_nil_iff. exact Ht.
  - destruct (blank s) eqn:Hb; [|reflexivity].
    apply trim_nil_iff in Hb. congruence.
Qed.


Example trim_title : trim (js "  Buy milk ") = js "Buy milk".
Proof. reflexivity. Qed.

(** No-break space, em space and byte-order mark are stripped as well. *)
Example trim_unicode : trim [0xA0; 0x2003; 0x61; 0x20; 0x62; 0xFEFF]%N = js "a b".
Proof. reflexivity. Qed.

(** The next-line control U+0085 is not white space for [trim]. *)
Example trim_keeps_next_line : trim [0x85]%N = [0x85]%N.
Proof. reflexivity. Qed.

Example code_points_surrogates :
  code_points [0x61; 0xD83D; 0xDCDD; 0xDC00]%N
  = [[0x61]; [0xD83D; 0xDCDD]; [0xDC00]]%N.
Proof. reflexivity. Qed.

Example strict_eq_number_string :
  strict_eq (Prim (Num 1)) (Str (js "1")) = false.
Proof. reflexivity. Qed.

(** ** The todo component *)

Import App.
Local Open Scope string_scope.

(** [addTodo] with its guard decided by [blank]. *)
Lemma addTodo_guard (c : state) :
  addTodo c =
  Do preventDefault
    (if blank (newTodo c) then Return (Ok tt)
     else Do (setLoading true)
            (try_finally
               (try_catch
                  (seq (fetch (add_request c)) (fun response =>
                   seq (response_json response) (fun data =>
                   seq (eval (iterate (todos c))) (fun elems =>
                   seq (perform (setTodos (Arr (elems ++ [data])))) (fun _ =>
                   perform (setNewTodo []))))))
                  (fun error =>
                     perform (console_error "Error adding todo:" error)))
               (perform (setLoading false)))).
Proof.
  unfold addTodo. cbn [seq pbind perform].
  rewrite trim_falsy_iff_blank. destruct (blank (newTodo c)); reflexivity.
Qed.

Ltac run_handler :=
  try unfold trace;
  cbn [run fst try_finally try_catch seq pbind fetch response_json
       perform eval received bind].

(** The four ways through [addTodo] once the title passed the guard. *)
Lemma addTodo_run_rejected (c : state) net e :
  blank (newTodo c) = false ->
  net (add_request c) = Throw e ->
  trace net (addTodo c) =
  [Did preventDefault; Did (setLoading true);
   Sent (add_request c); Settled (Throw e);
   Did (console_error "Error adding todo:" e); Did (setLoading false)].
Proof.
  intros Hb Hn. rewrite addTodo_guard, Hb. run_handler.
  rewrite Hn. reflexivity.
Qed.

Lemma addTodo_run_unparsed (c : state) net resp e :
  blank (newTodo c) = false ->
  net (add_request c) = Ok resp -> json resp = Throw e ->
  trace net (addTodo c) =
  [Did preventDefault; Did (setLoading true);
   Sent (add_request c); Settled (Ok resp); Reading resp; Parsed (Throw e);
   Did (console_error "Error adding todo:" e); Did (setLoading false)].
Proof.
  intros Hb Hn Hj. rewrite addTodo_guard, Hb. run_handler.
  rewrite Hn. run_handler. rewrite Hj. reflexivity.
Qed.

Lemma addTodo_run_not_iterable (c : state) net resp data e :
  blank (newTodo c) = false ->
  net (add_request c) = Ok resp -> json resp = Ok data ->
  iterate (todos c) = Throw e ->
  trace net (addTodo c) =
  [Did preventDefault; Did (setLoading true);
   Sent (add_request c); Settled (Ok resp); Reading resp; Parsed (Ok data);
   Did (console_error "Error adding todo:" e); Did (setLoading false)].
Proof.
  intros Hb Hn Hj Hi. rewrite addTodo_guard, Hb. run_handler.
  rewrite Hn. run_handler. rewrite Hj. run_handler. rewrite Hi. reflexivity.
Qed.

Lemma addTodo_run_created (c : state) net resp data elems :
  blank (newTodo c) = false ->
  net (add_request c) = Ok resp -> json resp = Ok data ->
  iterate (todos c) = Ok elems ->
  trace net (addTodo c) =
  [Did preventDefault; Did (setLoading true);
   Sent (add_request c); Settled (Ok resp); Reading resp; Parsed (Ok data);
   Did (setTodos (Arr (elems ++ [data]))); Did (setNewTodo []);
   Did (setLoading false)].
Proof.
  intros Hb Hn Hj Hi. rewrite addTodo_guard, Hb. run_handler.
  rewrite Hn. run_handler. rewrite Hj. run_handler. rewrite Hi. reflexivity.
Qed.

(** [received] names the two failures of the network and the one success. *)
Lemma received_cases (r : result response) :
  (exists e, r = Throw e /\ received r = Throw e)
  \/ (exists resp e, r = Ok resp /\ json resp = Throw e /\ received r = Throw e)
  \/ (exists resp data, r = Ok resp /\ json resp = Ok data /\ received r = Ok data).
Proof.
  destruct r as [resp|e]; [|left; eauto].
  right. unfold received. simpl.
  destruct (json resp) as [data|e] eqn:Hj; [right|left]; eauto.
Qed.

(** A failed create: one request, one log line, the state as before with
    [loading] off. *)
Lemma addTodo_failed (c : state) net e :
  blank (newTodo c) = false ->
  received (net (add_request c)) = Throw e ->
  let tr := trace net (addTodo c) in
  requests tr = [add_request c]
  /\ logged tr = [("Error adding todo:", e)]
  /\ todos_updates tr = []
  /\ forall s, replay s tr =
       {| todos := todos s; newTodo := newTodo s; loading := false |}.
Proof.
  intros Hb Hr.
  destruct (received_cases (net (add_request c)))
    as [[e' [Hn He]]|[[resp [e' [Hn [Hj He]]]]|[resp [data [Hn [Hj He]]]]]];
    rewrite He in Hr; inversion Hr; subst.
  - cbv zeta. rewrite (addTodo_run_rejected c net e Hb Hn).
    repeat split.
  - cbv zeta. rewrite (addTodo_run_unparsed c net resp e Hb Hn Hj).
    repeat split.
Qed.

(** The entries of a well-formed list all have readable properties, so the
    callbacks of [toggleTodo] and [deleteTodo] do not throw on it. *)
Lemma array_map_replace (id : prim) (updatedTodo : value) (L : list value) :
  forallb coercible L = true ->
  array_map (fun todo =>
               bind (get todo (js "id")) (fun todo_id =>
               Ok (if strict_eq todo_id id then updatedTodo else todo))) L
  = Ok (map (fun todo => if has_id todo id then updatedTodo else todo) L).
Proof.
  induction L as [|todo L IH]; simpl; [reflexivity|].
  intros H. apply andb_prop in H. destruct H as [Hc HL].
  rewrite (IH HL). unfold has_id.
  destruct todo as [[| |b|n|t]|elems|fields]; try discriminate; reflexivity.
Qed.

Lemma array_filter_remove (id : prim) (L : list value) :
  forallb coercible L = true ->
  array_filter (fun todo =>
                  bind (get todo (js "id")) (fun todo_id =>
                  Ok (negb (strict_eq todo_id id)))) L
  = Ok (filter (fun todo => negb (has_id todo id)) L).
Proof.
  induction L as [|todo L IH]; simpl; [reflexivity|].
  intros H. apply andb_prop in H. destruct H as [Hc HL].
  rewrite (IH HL). unfold has_id.
  destruct todo as [[| |b|n|t]|elems|fields]; try discriminate; reflexivity.
Qed.

(** Filtering out an entry that is there shortens the list. *)
Lemma filter_shrinks (keep : value -> bool) (L : list value) (x : value) :
  In x L -> keep x = false -> List.length (filter keep L) < List.length L.
Proof.
  induction L as [|y L IH]; simpl; [contradiction|].
  intros [Hx|Hin] Hk.
  - subst y. rewrite Hk.
    pose proof (filter_length_le keep L). lia.
  - specialize (IH Hin Hk). destruct (keep y); simpl; lia.
Qed.

(** The three ways through [toggleTodo]. *)
Lemma toggleTodo_run_rejected (c : state) net id completed e :
  net (toggle_request id completed) = Throw e ->
  trace net (toggleTodo c id completed) =
  [Sent (toggle_request id completed); Settled (Throw e);
   Did (console_error "Error updating todo:" e)].
Proof.
  intros Hn. unfold toggleTodo. run_handler. rewrite Hn. reflexivity.
Qed.

Lemma toggleTodo_run_unparsed (c : state) net id completed resp e :
  net (toggle_request id completed) = Ok resp -> json resp = Throw e ->
  trace net (toggleTodo c id completed) =
  [Sent (toggle_request id completed); Settled (Ok resp);
   Reading resp; Parsed (Throw e);
   Did (console_error "Error updating todo:" e)].
Proof.
  intros Hn Hj. unfold toggleTodo. run_handler. rewrite Hn. run_handler.
  rewrite Hj. reflexivity.
Qed.

Lemma toggleTodo_run_updated (c : state) net id completed resp updatedTodo L :
  net (toggle_request id completed) = Ok resp -> json resp = Ok updatedTodo ->
  todos c = Arr L -> forallb coercible L = true ->
  trace net (toggleTodo c id completed) =
  [Sent (toggle_request id completed); Settled (Ok resp);
   Reading resp; Parsed (Ok updatedTodo);
   Did (setTodos
          (Arr (map (fun todo => if has_id todo id then updatedTodo else todo)
                  L)))].
Proof.
  intros Hn Hj Ht HL. unfold toggleTodo. run_handler. rewrite Hn. run_handler.
  rewrite Hj, Ht. unfold method_map. rewrite (array_map_replace id updatedTodo L HL).
  reflexivity.
Qed.

Lemma toggleTodo_failed (c : state) net id completed e :
  received (net (toggle_request id completed)) = Throw e ->
  let tr := trace net (toggleTodo c id completed) in
  requests tr = [toggle_request id completed]
  /\ logged tr = [("Error updating todo:", e)]
  /\ todos_updates tr = []
  /\ forall s, replay s tr = s.
Proof.
  intros Hr.
  destruct (received_cases (net (toggle_request id completed)))
    as [[e' [Hn He]]|[[resp [e' [Hn [Hj He]]]]|[resp [data [Hn [Hj He]]]]]];
    rewrite He in Hr; inversion Hr; subst.
  - cbv zeta. rewrite (toggleTodo_run_rejected c net id completed e Hn).
    repeat split.
  - cbv zeta. rewrite (toggleTodo_run_unparsed c net id completed resp e Hn Hj).
    repeat split.
Qed.

(** The two ways through [deleteTodo]: the body of the response is never
    read, and neither is its status. *)
Lemma deleteTodo_run_rejected (c : state) net id e :
  net (delete_request id) = Throw e ->
  trace net (deleteTodo c id) =
  [Sent (delete_request id); Settled (Throw e);
   Did (console_error "Error deleting todo:" e)].
Proof.
  intros Hn. unfold deleteTodo. run_handler. rewrite Hn. reflexivity.
Qed.

Lemma deleteTodo_run_resolved (c : state) net id resp L :
  net (delete_request id) = Ok resp ->
  todos c = Arr L -> forallb coercible L = true ->
  trace net (deleteTodo c id) =
  [Sent (delete_request id); Settled (Ok resp);
   Did (setTodos (Arr (filter (fun todo => negb (has_id todo id)) L)))].
Proof.
  intros Hn Ht HL. unfold deleteTodo. run_handler. rewrite Hn, Ht.
  unfold method_filter. rewrite (array_filter_remove id L HL). reflexivity.
Qed.

Lemma deleteTodo_failed (c : state) net id e :
  net (delete_request id) = Throw e ->
  let tr := trace net (deleteTodo c id) in
  requests tr = [delete_request id]
  /\ logged tr = [("Error deleting todo:", e)]
  /\ todos_updates tr = []
  /\ forall s, replay s tr = s.
Proof.
  intros Hn. cbv zeta. rewrite (deleteTodo_run_rejected c net id e Hn).
  repeat split.
Qed.

(** The three ways through [fetchTodos]. *)

Lemma fetchTodos_run_rejected net e :
  net list_request = Throw e ->
  trace net fetchTodos =
  [Sent list_request; Settled (Throw e);
   Did (console_error "Error fetching todos:" e)].
Proof.
  intros Hn. unfold fetchTodos. run_handler.
  rewrite Hn. reflexivity.
Qed.

Lemma fetchTodos_run_unparsed net resp e :
  net list_request = Ok resp -> json resp = Throw e ->
  trace net fetchTodos =
  [Sent list_request; Settled (Ok resp); Reading resp; Parsed (Throw e);
   Did (console_error "Error fetching todos:" e)].
Proof.
  intros Hn Hj. unfold fetchTodos. run_handler.
  rewrite Hn. run_handler. rewrite Hj. reflexivity.
Qed.

Lemma fetchTodos_run_loaded net resp data :
  net list_request = Ok resp -> json resp = Ok data ->
  trace net fetchTodos =
  [Sent list_request; Settled (Ok resp); Reading resp; Parsed (Ok data);
   Did (setTodos data)].
Proof.
  intros Hn Hj. unfold fetchTodos. run_handler.
  rewrite Hn. run_handler. rewrite Hj. reflexivity.
Qed.

(** Three runs on the sample data. *)
Example addTodo_created_trace :
  trace (answering 201 bread) (addTodo bread_draft) =
  [Did preventDefault; Did (setLoading true);
   Sent (add_request bread_draft);
   Settled (Ok {| status := 201; json := Ok bread |});
   Reading {| status := 201; json := Ok bread |}; Parsed (Ok bread);
   Did (setTodos (Arr [milk; eggs; bread])); Did (setNewTodo []);
   Did (setLoading false)].
Proof. reflexivity. Qed.

Example deleteTodo_offline_trace :
  trace offline (deleteTodo bread_draft (Num 2)) =
  [Sent (delete_request (Num 2)); Settled (Throw (TypeError "Failed to fetch"));
   Did (console_error "Error deleting todo:" (TypeError "Failed to fetch"))].
Proof. reflexivity. Qed.

(** A null entry makes the callback of [map] throw: the handler logs the
    [TypeError] and stores nothing. *)
Example toggleTodo_null_entry :
  todos_updates
    (trace (answering 200 milk)
       (toggleTodo {| todos := Arr [milk; Prim Null]; newTodo := [];
                      loading := false |} (Num 1) (Bool false)))
  = [].
Proof. reflexivity. Qed.

(** *** The claims about the todo component

    A handler is run from the state [s] of the render that created it, so its
    closure is [s] too. *)

(** C1.  Submitting the form with a title that is empty or made of white
    space only creates nothing: [addTodo] returns at its guard, sends no
    request (no POST in particular) and leaves the three state cells as they
    were. *)
Theorem addTodo_blank_title_creates_nothing :
  forall (s : state) (net : request -> result response),
    blank (newTodo s) = true ->
    run net (addTodo s) = ([Did preventDefault], Ok tt)
    /\ requests (trace net (addTodo s)) = []
    /\ todos_updates (trace net (addTodo s)) = []
    /\ replay s (trace net (addTodo s)) = s.
Proof.
  intros s net Hb. unfold trace. rewrite addTodo_guard, Hb. cbn.
  repeat split.
Qed.

Lemma addTodo_blank_title_creates_nothing_witness :
  run offline (addTodo blank_draft) = ([Did preventDefault], Ok tt)
  /\ requests (trace offline (addTodo blank_draft)) = []
  /\ todos_updates (trace offline (addTodo blank_draft)) = []
  /\ replay blank_draft (trace offline (addTodo blank_draft)) = blank_draft.
Proof.
  apply (addTodo_blank_title_creates_nothing blank_draft offline).
  reflexivity.
Defined.

(** C2.  When the fetch of [addTodo], [toggleTodo] or [deleteTodo] fails
    (the [fetch] promise rejects, or for the first two [response.json()]
    does), the handler sends that one request and no other, logs the error
    once with [console.error], never calls [setTodos], and leaves the state as
    it was ([addTodo] having switched [loading] off again); the state has no
    cell that could hold an error message. *)
Theorem fetch_errors_logged_state_kept :
  forall (s : state) (net : request -> result response)
         (id : prim) (completed : value) (e : error),
    (blank (newTodo s) = false ->
     received (net (add_request s)) = Throw e ->
     let tr := trace net (addTodo s) in
     requests tr = [add_request s]
     /\ logged tr = [("Error adding todo:", e)]
     /\ todos_updates tr = []
     /\ replay s tr =
        {| todos := todos s; newTodo := newTodo s; loading := false |})
    /\ (received (net (toggle_request id completed)) = Throw e ->
        let tr := trace net (toggleTodo s id completed) in
        requests tr = [toggle_request id completed]
        /\ logged tr = [("Error updating todo:", e)]
        /\ todos_updates tr = []
        /\ replay s tr = s)
    /\ (net (delete_request id) = Throw e ->
        let tr := trace net (deleteTodo s id) in
        requests tr = [delete_request id]
        /\ logged tr = [("Error deleting todo:", e)]
        /\ todos_updates tr = []
        /\ replay s tr = s).
Proof.
  intros s net id completed e. split; [|split].
  - intros Hb Hr.
    destruct (addTodo_failed s net e Hb Hr) as [H1 [H2 [H3 H4]]].
    cbv zeta. rewrite H1, H2, H3, H4. repeat split.
  - intros Hr.
    destruct (toggleTodo_failed s net id completed e Hr) as [H1 [H2 [H3 H4]]].
    cbv zeta. rewrite H1, H2, H3, H4. repeat split.
  - intros Hn.
    destruct (deleteTodo_failed s net id e Hn) as [H1 [H2 [H3 H4]]].
    cbv zeta. rewrite H1, H2, H3, H4. repeat split.
Qed.

Lemma fetch_errors_logged_state_kept_witness :
  logged (trace offline (addTodo bread_draft))
    = [("Error adding todo:", TypeError "Failed to fetch")]
  /\ replay bread_draft (trace offline (addTodo bread_draft)) = bread_draft
  /\ replay bread_draft
       (trace offline (toggleTodo bread_draft (Num 1) (Bool false)))
     = bread_draft
  /\ replay bread_draft (trace offline (deleteTodo bread_draft (Num 1)))
     = bread_draft.
Proof.
  destruct (fetch_errors_logged_state_kept bread_draft offline (Num 1)
              (Prim (Bool false)) (TypeError "Failed to fetch"))
    as [Hadd [Htoggle Hdelete]].
  destruct (Hadd eq_refl eq_refl) as [_ [Hlog [_ Hstate]]].
  destruct (Htoggle eq_refl) as [_ [_ [_ Htoggled]]].
  destruct (Hdelete eq_refl) as [_ [_ [_ Hdeleted]]].
  split; [exact Hlog|]. split; [exact Hstate|].
  split; [exact Htoggled|exact Hdeleted].
Defined.

(** C3.  [toggleTodo(i, c)] sends one PUT for the todo [i] whose body is the
    object with the single field [completed], set to [!c].  When the answer
    parses, every entry of the list whose [id] is [i] becomes the record the
    server returned, and every entry with another [id] stays what and where
    it was; the input text and the loading flag are not touched. *)
Theorem toggleTodo_replaces_matching_entry_only :
  forall (s : state) (net : request -> result response)
         (i : prim) (c : value) (L : list value)
         (resp : response) (updatedTodo : value),
    todos s = Arr L ->
    forallb coercible L = true ->
    net (toggle_request i c) = Ok resp ->
    json resp = Ok updatedTodo ->
    let tr := trace net (toggleTodo s i c) in
    let L' := map (fun todo => if has_id todo i then updatedTodo else todo) L in
    requests tr =
      [{| req_url := ApiTodo i; method := PUT; headers := json_headers;
          body := Some (JSON_stringify
                          (Obj [(js "completed",
                                 Prim (Bool (negb (truthy c))))])) |}]
    /\ replay s tr =
       {| todos := Arr L'; newTodo := newTodo s; loading := loading s |}
    /\ List.length L' = List.length L
    /\ (forall k todo, nth_error L k = Some todo -> has_id todo i = true ->
                       nth_error L' k = Some updatedTodo)
    /\ (forall k todo, nth_error L k = Some todo -> has_id todo i = false ->
                       nth_error L' k = Some todo).
Proof.
  intros s net i c L resp updatedTodo Ht HL Hn Hj. cbv zeta.
  rewrite (toggleTodo_run_updated s net i c resp updatedTodo L Hn Hj Ht HL).
  split; [reflexivity|]. split; [reflexivity|].
  split; [apply length_map|].
  split; intros k todo Hk Hid; rewrite nth_error_map, Hk; simpl;
    rewrite Hid; reflexivity.
Qed.

Lemma toggleTodo_replaces_matching_entry_only_witness :
  replay bread_draft
    (trace (answering 200 (todo_record 1 "Buy milk" true))
       (toggleTodo bread_draft (Num 1) (Bool false)))
  = {| todos := Arr [todo_record 1 "Buy milk" true; eggs];
       newTodo := js "Buy bread"; loading := false |}.
Proof.
  destruct (toggleTodo_replaces_matching_entry_only bread_draft
              (answering 200 (todo_record 1 "Buy milk" true))
              (Num 1) (Prim (Bool false)) [milk; eggs]
              {| status := 200; json := Ok (todo_record 1 "Buy milk" true) |}
              (todo_record 1 "Buy milk" true)
              eq_refl eq_refl eq_refl eq_refl)
    as [_ [Hstate _]].
  exact Hstate.
Defined.

Lemma received_ok (r : result response) (data : value) :
  received r = Ok data -> exists resp, r = Ok resp /\ json resp = Ok data.
Proof.
  destruct r as [resp|e]; simpl; [|discriminate].
  intros H. exists resp. split; [reflexivity|exact H].
Qed.

(** C4.  A create that passed the guard sends its request with [loading]
    already true, and [loading] is true at every point where [addTodo] waits
    (for the response, then for its body); the form rendered then has both
    the input and the submit button disabled.  However the request ends,
    [addTodo] finishes with [loading] false and the form enabled again. *)
Theorem loading_true_while_create_in_flight :
  forall (s : state) (net : request -> result response),
    blank (newTodo s) = false ->
    let tr := trace net (addTodo s) in
    requests tr = [add_request s]
    /\ suspensions s tr <> []
    /\ Forall (fun waiting =>
                 loading waiting = true
                 /\ input_disabled (render_form waiting) = true
                 /\ button_disabled (render_form waiting) = true)
              (suspensions s tr)
    /\ loading (replay s tr) = false
    /\ input_disabled (render_form (replay s tr)) = false
    /\ button_disabled (render_form (replay s tr)) = false.
Proof.
  intros s net Hb. cbv zeta.
  destruct (received_cases (net (add_request s)))
    as [[e [Hn _]]|[[resp [e [Hn [Hj _]]]]|[resp [data [Hn [Hj _]]]]]].
  - rewrite (addTodo_run_rejected s net e Hb Hn). cbn.
    repeat split; [discriminate|repeat constructor].
  - rewrite (addTodo_run_unparsed s net resp e Hb Hn Hj). cbn.
    repeat split; [discriminate|repeat constructor].
  - destruct (iterate (todos s)) as [elems|e] eqn:Hi.
    + rewrite (addTodo_run_created s net resp data elems Hb Hn Hj Hi). cbn.
      repeat split; [discriminate|repeat constructor].
    + rewrite (addTodo_run_not_iterable s net resp data e Hb Hn Hj Hi). cbn.
      repeat split; [discriminate|repeat constructor].
Qed.

Lemma loading_true_while_create_in_flight_witness :
  suspensions bread_draft (trace (answering 201 bread) (addTodo bread_draft))
  = [ {| todos := Arr [milk; eggs]; newTodo := js "Buy bread";
         loading := true |};
      {| todos := Arr [milk; eggs]; newTodo := js "Buy bread";
         loading := true |} ]
  /\ loading (replay bread_draft
                (trace (answering 201 bread) (addTodo bread_draft))) = false.
Proof.
  destruct (loading_true_while_create_in_flight bread_draft
              (answering 201 bread) eq_refl)
    as [_ [_ [_ [Hdone _]]]].
  split; [reflexivity|exact Hdone].
Defined.

(** C5.  The mount effect sends exactly one request, GET /api/todos, and when
    the answer parses it stores the parsed body, whatever it is, as the todo
    list. *)
Theorem mount_fetches_todos_once :
  forall (s : state) (net : request -> result response),
    let tr := trace net mount_effect in
    requests tr =
      [{| req_url := ApiTodos; method := GET; headers := []; body := None |}]
    /\ (forall data,
          received (net list_request) = Ok data ->
          todos_updates tr = [data]
          /\ replay s tr =
             {| todos := data; newTodo := newTodo s; loading := loading s |}).
Proof.
  intros s net. cbv zeta. unfold mount_effect. split.
  - destruct (received_cases (net list_request))
      as [[e [Hn _]]|[[resp [e [Hn [Hj _]]]]|[resp [data [Hn [Hj _]]]]]].
    + rewrite (fetchTodos_run_rejected net e Hn). reflexivity.
    + rewrite (fetchTodos_run_unparsed net resp e Hn Hj). reflexivity.
    + rewrite (fetchTodos_run_loaded net resp data Hn Hj). reflexivity.
  - intros data Hr. apply received_ok in Hr. destruct Hr as [resp [Hn Hj]].
    rewrite (fetchTodos_run_loaded net resp data Hn Hj).
    split; reflexivity.
Qed.

Lemma mount_fetches_todos_once_witness :
  replay {| todos := Arr []; newTodo := []; loading := false |}
    (trace (answering 200 (Arr [milk; eggs])) mount_effect)
  = {| todos := Arr [milk; eggs]; newTodo := []; loading := false |}.
Proof.
  destruct (mount_fetches_todos_once
              {| todos := Arr []; newTodo := []; loading := false |}
              (answering 200 (Arr [milk; eggs])))
    as [_ Hload].
  destruct (Hload (Arr [milk; eggs]) eq_refl) as [_ Hstate].
  exact Hstate.
Defined.

(** C6.  A create whose answer parses sets the todo list to the prior list
    [L] followed by the record the server returned, so the entries of [L]
    keep their order and the new record comes last. *)
Theorem addTodo_appends_created_record :
  forall (s : state) (net : request -> result response)
         (L : list value) (resp : response) (data : value),
    blank (newTodo s) = false ->
    todos s = Arr L ->
    net (add_request s) = Ok resp ->
    json resp = Ok data ->
    let tr := trace net (addTodo s) in
    todos_updates tr = [Arr (L ++ [data])]
    /\ todos (replay s tr) = Arr (L ++ [data]).
Proof.
  intros s net L resp data Hb Ht Hn Hj. cbv zeta.
  assert (Hi : iterate (todos s) = Ok L) by (rewrite Ht; reflexivity).
  rewrite (addTodo_run_created s net resp data L Hb Hn Hj Hi).
  split; reflexivity.
Qed.

Lemma addTodo_appends_created_record_witness :
  todos (replay bread_draft
           (trace (answering 201 bread) (addTodo bread_draft)))
  = Arr [milk; eggs; bread].
Proof.
  destruct (addTodo_appends_created_record bread_draft (answering 201 bread)
              [milk; eggs] {| status := 201; json := Ok bread |} bread
              eq_refl eq_refl eq_refl eq_refl)
    as [_ Hstate].
  exact Hstate.
Defined.

(** C8.  Once the DELETE fetch resolves, with any status and any body,
    [deleteTodo] drops every entry whose [id] is the given one and keeps the
    others in their order; nothing is logged.  Only when the fetch rejects
    does the list stay as it was. *)
Theorem deleteTodo_ignores_response_status :
  forall (s : state) (net : request -> result response)
         (i : prim) (L : list value),
    todos s = Arr L ->
    forallb coercible L = true ->
    let tr := trace net (deleteTodo s i) in
    (forall (code : Z) (parsed : result value),
        net (delete_request i) = Ok {| status := code; json := parsed |} ->
        let L' := filter (fun todo => negb (has_id todo i)) L in
        replay s tr =
          {| todos := Arr L'; newTodo := newTodo s; loading := loading s |}
        /\ (forall todo, In todo L' -> has_id todo i = false)
        /\ (forall todo, In todo L -> has_id todo i = false -> In todo L')
        /\ (forall todo, In todo L -> has_id todo i = true ->
                         List.length L' < List.length L)
        /\ logged tr = [])
    /\ (forall e,
          net (delete_request i) = Throw e ->
          todos_updates tr = [] /\ replay s tr = s).
Proof.
  intros s net i L Ht HL. cbv zeta. split.
  - intros code parsed Hn.
    rewrite (deleteTodo_run_resolved s net i _ L Hn Ht HL).
    split; [reflexivity|]. split; [|split; [|split; [|reflexivity]]].
    + intros todo Hin. apply filter_In in Hin. destruct Hin as [_ Hid].
      destruct (has_id todo i); [discriminate|reflexivity].
    + intros todo Hin Hid. apply filter_In. rewrite Hid. split; [exact Hin|reflexivity].
    + intros todo Hin Hid. apply (filter_shrinks _ L todo Hin).
      rewrite Hid. reflexivity.
  - intros e Hn.
    destruct (deleteTodo_failed s net i e Hn) as [_ [_ [Hu Hs]]].
    split; [exact Hu|apply Hs].
Qed.

Lemma deleteTodo_ignores_response_status_witness :
  replay bread_draft
    (trace (answering 404 (Obj [(js "detail", Prim (Str (js "Todo not found")))]))
       (deleteTodo bread_draft (Num 1)))
  = {| todos := Arr [eggs]; newTodo := js "Buy bread"; loading := false |}
  /\ replay bread_draft (trace offline (deleteTodo bread_draft (Num 1)))
     = bread_draft.
Proof.
  destruct (deleteTodo_ignores_response_status bread_draft
              (answering 404
                 (Obj [(js "detail", Prim (Str (js "Todo not found")))]))
              (Num 1) [milk; eggs] eq_refl eq_refl)
    as [Hresolved _].
  destruct (deleteTodo_ignores_response_status bread_draft offline
              (Num 1) [milk; eggs] eq_refl eq_refl)
    as [_ Hrejected].
  split.
  - destruct (Hresolved 404%Z _ eq_refl) as [Hstate _]. exact Hstate.
  - destruct (Hrejected _ eq_refl) as [_ Hstate]. exact Hstate.
Defined.

(** C9.  When the create goes through (the response arrives, its body parses
    and the new list is stored) the input text is reset to the empty string;
    when the attempt throws instead (the fetch rejects, the body does not
    parse, or the stored list cannot be spread), the input text stays. *)
Theorem addTodo_resets_input_only_on_success :
  forall (s : state) (net : request -> result response),
    blank (newTodo s) = false ->
    let tr := trace net (addTodo s) in
    (forall data elems,
        received (net (add_request s)) = Ok data ->
        iterate (todos s) = Ok elems ->
        newTodo (replay s tr) = [])
    /\ (forall e,
          received (net (add_request s)) = Throw e ->
          newTodo (replay s tr) = newTodo s)
    /\ (forall data e,
          received (net (add_request s)) = Ok data ->
          iterate (todos s) = Throw e ->
          newTodo (replay s tr) = newTodo s).
Proof.
  intros s net Hb. cbv zeta. split; [|split].
  - intros data elems Hr Hi. apply received_ok in Hr.
    destruct Hr as [resp [Hn Hj]].
    rewrite (addTodo_run_created s net resp data elems Hb Hn Hj Hi).
    reflexivity.
  - intros e Hr.
    destruct (addTodo_failed s net e Hb Hr) as [_ [_ [_ Hs]]].
    rewrite Hs. reflexivity.
  - intros data e Hr Hi. apply received_ok in Hr.
    destruct Hr as [resp [Hn Hj]].
    rewrite (addTodo_run_not_iterable s net resp data e Hb Hn Hj Hi).
    reflexivity.
Qed.

Lemma addTodo_resets_input_only_on_success_witness :
  newTodo (replay bread_draft
             (trace (answering 201 bread) (addTodo bread_draft))) = []
  /\ newTodo (replay bread_draft (trace garbled (addTodo bread_draft)))
     = js "Buy bread".
Proof.
  destruct (addTodo_resets_input_only_on_success bread_draft
              (answering 201 bread) eq_refl)
    as [Hreset _].
  destruct (addTodo_resets_input_only_on_success bread_draft garbled eq_refl)
    as [_ [Hkept _]].
  split.
  - exact (Hreset bread [milk; eggs] eq_refl eq_refl).
  - exact (Hkept (SyntaxError "Unexpected token <") eq_refl).
Defined.

(** *** Further properties of the todo component *)

(** Splits on every promise and on every expression that may throw. *)
Ltac handler_paths :=
  repeat (run_handler;
          match goal with
          | |- context [match ?x with Ok _ => _ | Throw _ => _ end] =>
              destruct x eqn:?
          end);
  run_handler.

(** X1.  When the GET of [fetchTodos] fails (the fetch rejects or the body
    does not parse), the one request was sent, the error is logged once under
    "Error fetching todos:", no setter is called and the state stays as it
    was. *)
Theorem fetchTodos_failure_keeps_state :
  forall (s : state) (net : request -> result response) (e : error),
    received (net list_request) = Throw e ->
    let tr := trace net fetchTodos in
    requests tr = [list_request]
    /\ logged tr = [("Error fetching todos:", e)]
    /\ todos_updates tr = []
    /\ replay s tr = s.
Proof.
  intros s net e Hr. cbv zeta.
  destruct (received_cases (net list_request))
    as [[e' [Hn He]]|[[resp [e' [Hn [Hj He]]]]|[resp [data [Hn [Hj He]]]]]];
    rewrite He in Hr; inversion Hr; subst.
  - rewrite (fetchTodos_run_rejected net e Hn). repeat split.
  - rewrite (fetchTodos_run_unparsed net resp e Hn Hj). repeat split.
Qed.

Lemma fetchTodos_failure_keeps_state_witness :
  logged (trace garbled fetchTodos)
    = [("Error fetching todos:", SyntaxError "Unexpected token <")]
  /\ replay bread_draft (trace garbled fetchTodos) = bread_draft.
Proof.
  destruct (fetchTodos_failure_keeps_state bread_draft garbled
              (SyntaxError "Unexpected token <") eq_refl)
    as [_ [Hlog [_ Hstate]]].
  split; [exact Hlog|exact Hstate].
Defined.

(** X2.  No handler lets an exception escape: whatever the network does and
    whatever the list holds, the promise each async handler returns is
    fulfilled, never rejected. *)
Theorem handlers_never_reject :
  forall (c : state) (net : request -> result response)
         (id : prim) (completed : value),
    snd (run net fetchTodos) = Ok tt
    /\ snd (run net (addTodo c)) = Ok tt
    /\ snd (run net (toggleTodo c id completed)) = Ok tt
    /\ snd (run net (deleteTodo c id)) = Ok tt.
Proof.
  intros c net id completed. repeat split.
  - unfold fetchTodos. handler_paths; reflexivity.
  - rewrite addTodo_guard. destruct (blank (newTodo c)); [reflexivity|].
    handler_paths; reflexivity.
  - unfold toggleTodo. handler_paths; reflexivity.
  - unfold deleteTodo. handler_paths; reflexivity.
Qed.

Lemma addTodo_requests (c : state) (net : request -> result response) :
  requests (trace net (addTodo c))
  = (if blank (newTodo c) then [] else [add_request c]).
Proof.
  rewrite addTodo_guard. destruct (blank (newTodo c)); [reflexivity|].
  handler_paths; reflexivity.
Qed.

(** X3.  On every path a handler sends exactly one request, [addTodo] none
    when the title is blank: no handler retries or follows up, not even when
    the answer cannot be used. *)
Theorem handlers_send_one_request :
  forall (c : state) (net : request -> result response)
         (id : prim) (completed : value),
    requests (trace net fetchTodos) = [list_request]
    /\ requests (trace net (addTodo c))
       = (if blank (newTodo c) then [] else [add_request c])
    /\ requests (trace net (toggleTodo c id completed))
       = [toggle_request id completed]
    /\ requests (trace net (deleteTodo c id)) = [delete_request id].
Proof.
  intros c net id completed. repeat split.
  - unfold fetchTodos. handler_paths; reflexivity.
  - apply addTodo_requests.
  - unfold toggleTodo. handler_paths; reflexivity.
  - unfold deleteTodo. handler_paths; reflexivity.
Qed.

(** X4.  Nothing is shown before the answer is in: at every point where a
    handler waits, the list and the input text are those of the state it
    started from ([fetchTodos], [toggleTodo] and [deleteTodo] have changed
    nothing at all by then). *)
Theorem state_kept_while_waiting :
  forall (c s : state) (net : request -> result response)
         (id : prim) (completed : value),
    Forall (fun waiting => waiting = s) (suspensions s (trace net fetchTodos))
    /\ Forall (fun waiting => waiting = s)
         (suspensions s (trace net (toggleTodo c id completed)))
    /\ Forall (fun waiting => waiting = s)
         (suspensions s (trace net (deleteTodo c id)))
    /\ Forall (fun waiting =>
                 todos waiting = todos s /\ newTodo waiting = newTodo s)
         (suspensions s (trace net (addTodo c))).
Proof.
  intros c s net id completed. repeat split.
  - unfold fetchTodos. handler_paths; cbn; repeat constructor.
  - unfold toggleTodo. handler_paths; cbn; repeat constructor.
  - unfold deleteTodo. handler_paths; cbn; repeat constructor.
  - rewrite addTodo_guard. destruct (blank (newTodo c)); [constructor|].
    handler_paths; cbn; repeat constructor.
Qed.

(** X5.  [fetchTodos], [toggleTodo] and [deleteTodo] never touch the input
    text or the loading flag, on any path: the form stays as it is, enabled
    included, while they run and after. *)
Theorem list_handlers_leave_form_alone :
  forall (c s : state) (net : request -> result response)
         (id : prim) (completed : value),
    render_form (replay s (trace net fetchTodos)) = render_form s
    /\ render_form (replay s (trace net (toggleTodo c id completed)))
       = render_form s
    /\ render_form (replay s (trace net (deleteTodo c id))) = render_form s.
Proof.
  intros c s net id completed. repeat split.
  - unfold fetchTodos. handler_paths; reflexivity.
  - unfold toggleTodo. handler_paths; reflexivity.
  - unfold deleteTodo. handler_paths; reflexivity.
Qed.

(** X6.  What is posted is the text as typed: after the input changed to a
    text that is not blank, submitting sends one POST whose title is that
    text, untrimmed, with [completed] false. *)
Theorem typed_title_posted_verbatim :
  forall (s : state) (net : request -> result response) (text : jsstring),
    blank text = false ->
    let typed := replay s (trace net (onChange text)) in
    typed = {| todos := todos s; newTodo := text; loading := loading s |}
    /\ requests (trace net (addTodo typed)) =
       [{| req_url := ApiTodos; method := POST;
           headers := [("Content-Type", "application/json")];
           body := Some (JSON_stringify
                           (Obj [(js "title", Prim (Str text));
                                 (js "completed", Prim (Bool false))])) |}].
Proof.
  intros s net text Hb. cbv zeta. split; [reflexivity|].
  rewrite addTodo_requests. cbn [onChange perform trace run fst replay fold_left apply newTodo].
  rewrite Hb. reflexivity.
Qed.

Lemma typed_title_posted_verbatim_witness :
  requests (trace offline
              (addTodo (replay blank_draft
                          (trace offline (onChange (js " Buy tea "))))))
  = [{| req_url := ApiTodos; method := POST;
        headers := [("Content-Type", "application/json")];
        body := Some (JSON_stringify
                        (Obj [(js "title", Prim (Str (js " Buy tea ")));
                              (js "completed", Prim (Bool false))])) |}].
Proof.
  destruct (typed_title_posted_verbatim blank_draft offline (js " Buy tea ")
              eq_refl)
    as [_ Hsent].
  exact Hsent.
Defined.

(** X7.  A handler stores a list computed from the todos of the render that
    created it (its closure [c]), not from the state [s] it finds when the
    answer arrives: whatever [s] holds is overwritten. *)
Theorem handlers_write_from_their_render :
  forall (c s : state) (net : request -> result response)
         (L : list value) (id : prim) (completed : value)
         (resp : response) (data : value),
    todos c = Arr L ->
    forallb coercible L = true ->
    (blank (newTodo c) = false ->
     net (add_request c) = Ok resp -> json resp = Ok data ->
     todos (replay s (trace net (addTodo c))) = Arr (L ++ [data]))
    /\ (net (toggle_request id completed) = Ok resp -> json resp = Ok data ->
        todos (replay s (trace net (toggleTodo c id completed)))
        = Arr (map (fun todo => if has_id todo id then data else todo) L))
    /\ (net (delete_request id) = Ok resp ->
        todos (replay s (trace net (deleteTodo c id)))
        = Arr (filter (fun todo => negb (has_id todo id)) L)).
Proof.
  intros c s net L id completed resp data Ht HL. split; [|split].
  - intros Hb Hn Hj.
    assert (Hi : iterate (todos c) = Ok L) by (rewrite Ht; reflexivity).
    rewrite (addTodo_run_created c net resp data L Hb Hn Hj Hi). reflexivity.
  - intros Hn Hj.
    rewrite (toggleTodo_run_updated c net id completed resp data L Hn Hj Ht HL).
    reflexivity.
  - intros Hn.
    rewrite (deleteTodo_run_resolved c net id resp L Hn Ht HL). reflexivity.
Qed.

Lemma handlers_write_from_their_render_witness :
  todos (replay {| todos := Arr []; newTodo := []; loading := false |}
           (trace (answering 204 (Prim Null)) (deleteTodo bread_draft (Num 1))))
  = Arr [eggs].
Proof.
  destruct (handlers_write_from_their_render bread_draft
              {| todos := Arr []; newTodo := []; loading := false |}
              (answering 204 (Prim Null)) [milk; eggs] (Num 1) (Prim Null)
              {| status := 204; json := Ok (Prim Null) |} (Prim Null)
              eq_refl eq_refl)
    as [_ [_ Hdelete]].
  exact (Hdelete eq_refl).
Defined.

(** X8.  Two deletions started from the same render lose the first one: once
    both have been answered, the list is the rendered list without the second
    id only, so an entry removed by the first deletion is back. *)
Theorem overlapping_deletes_lose_first :
  forall (c : state) (net : request -> result response)
         (L : list value) (i j : prim) (first second : response),
    todos c = Arr L ->
    forallb coercible L = true ->
    net (delete_request i) = Ok first ->
    net (delete_request j) = Ok second ->
    let after_first := replay c (trace net (deleteTodo c i)) in
    let after_both := replay after_first (trace net (deleteTodo c j)) in
    todos after_first = Arr (filter (fun todo => negb (has_id todo i)) L)
    /\ todos after_both = Arr (filter (fun todo => negb (has_id todo j)) L)
    /\ (forall todo, In todo L -> has_id todo i = true ->
                     has_id todo j = false ->
                     In todo (filter (fun todo => negb (has_id todo j)) L)).
Proof.
  intros c net L i j first second Ht HL Hi Hj. cbv zeta.
  rewrite (deleteTodo_run_resolved c net i first L Hi Ht HL).
  rewrite (deleteTodo_run_resolved c net j second L Hj Ht HL).
  split; [reflexivity|]. split; [reflexivity|].
  intros todo Hin _ Hid. apply filter_In. rewrite Hid. split; [exact Hin|reflexivity].
Qed.

Lemma overlapping_deletes_lose_first_witness :
  todos (replay (replay bread_draft
                   (trace (answering 204 (Prim Null))
                      (deleteTodo bread_draft (Num 1))))
           (trace (answering 204 (Prim Null)) (deleteTodo bread_draft (Num 2))))
  = Arr [milk].
Proof.
  destruct (overlapping_deletes_lose_first bread_draft
              (answering 204 (Prim Null)) [milk; eggs] (Num 1) (Num 2)
              {| status := 204; json := Ok (Prim Null) |}
              {| status := 204; json := Ok (Prim Null) |}
              eq_refl eq_refl eq_refl eq_refl)
    as [_ [Hboth _]].
  exact Hboth.
Defined.

Lemma filter_keeps_coercible (keep : value -> bool) (L : list value) :
  forallb coercible L = true -> forallb coercible (filter keep L) = true.
Proof.
  induction L as [|x L IH]; simpl; [reflexivity|].
  intros H. apply andb_prop in H. destruct H as [Hx HL].
  destruct (keep x); simpl; [rewrite Hx|]; apply IH; exact HL.
Qed.

Lemma filter_filter (f g : value -> bool) (L : list value) :
  filter g (filter f L) = filter (fun x => f x && g x) L.
Proof.
  induction L as [|x L IH]; simpl; [reflexivity|].
  destruct (f x); simpl; [destruct (g x)|]; rewrite IH; reflexivity.
Qed.

(** X9.  Two deletions made one after the other, each from the render of
    the state the previous one left, remove both ids, and the order in which
    they are made does not matter. *)
Theorem successive_deletes_commute :
  forall (s : state) (net : request -> result response)
         (L : list value) (i j : prim) (first second : response),
    todos s = Arr L ->
    forallb coercible L = true ->
    net (delete_request i) = Ok first ->
    net (delete_request j) = Ok second ->
    let delete_from := fun (from : state) (id : prim) =>
                         replay from (trace net (deleteTodo from id)) in
    todos (delete_from (delete_from s i) j)
    = Arr (filter (fun todo => negb (has_id todo i) && negb (has_id todo j)) L)
    /\ delete_from (delete_from s i) j = delete_from (delete_from s j) i.
Proof.
  intros s net L i j first second Ht HL Hi Hj. cbv beta zeta.
  rewrite (deleteTodo_run_resolved s net i first L Hi Ht HL).
  rewrite (deleteTodo_run_resolved s net j second L Hj Ht HL).
  cbn [replay fold_left apply].
  rewrite (deleteTodo_run_resolved
             {| todos := Arr (filter (fun todo => negb (has_id todo i)) L);
                newTodo := newTodo s; loading := loading s |}
             net j second _ Hj eq_refl (filter_keeps_coercible _ L HL)).
  rewrite (deleteTodo_run_resolved
             {| todos := Arr (filter (fun todo => negb (has_id todo j)) L);
                newTodo := newTodo s; loading := loading s |}
             net i first _ Hi eq_refl (filter_keeps_coercible _ L HL)).
  cbn [replay fold_left apply todos newTodo loading].
  rewrite !filter_filter. split; [reflexivity|].
  f_equal. f_equal. apply filter_ext. intros todo. apply andb_comm.
Qed.

Lemma successive_deletes_commute_witness :
  todos (replay (replay bread_draft
                   (trace (answering 204 (Prim Null))
                      (deleteTodo bread_draft (Num 1))))
           (trace (answering 204 (Prim Null))
              (deleteTodo (replay bread_draft
                             (trace (answering 204 (Prim Null))
                                (deleteTodo bread_draft (Num 1))))
                 (Num 2))))
  = Arr [].
Proof.
  destruct (successive_deletes_commute bread_draft
              (answering 204 (Prim Null)) [milk; eggs] (Num 1) (Num 2)
              {| status := 204; json := Ok (Prim Null) |}
              {| status := 204; json := Ok (Prim Null) |}
              eq_refl eq_refl eq_refl eq_refl)
    as [Hboth _].
  exact Hboth.
Defined.

Lemma filter_all_kept (keep : value -> bool) (L : list value) :
  (forall x, In x L -> keep x = true) -> filter keep L = L.
Proof.
  induction L as [|x L IH]; simpl; [reflexivity|].
  intros H. rewrite (H x (or_introl eq_refl)). f_equal.
  apply IH. intros y Hy. apply H. right. exact Hy.
Qed.

Lemma map_none_replaced (hit : value -> bool) (u : value) (L : list value) :
  (forall x, In x L -> hit x = false) ->
  map (fun x => if hit x then u else x) L = L.
Proof.
  induction L as [|x L IH]; simpl; [reflexivity|].
  intros H. rewrite (H x (or_introl eq_refl)). f_equal.
  apply IH. intros y Hy. apply H. right. exact Hy.
Qed.

Lemma state_eta (s : state) :
  {| todos := todos s; newTodo := newTodo s; loading := loading s |} = s.
Proof. destruct s; reflexivity. Qed.

(** X10.  Toggling or deleting an id that no entry of the list carries
    still sends the request, and once it is answered the state is exactly
    what it was: the record a PUT returned is dropped. *)
Theorem unknown_id_changes_nothing :
  forall (s : state) (net : request -> result response)
         (L : list value) (i : prim) (c : value)
         (resp : response) (data : value),
    todos s = Arr L ->
    forallb coercible L = true ->
    (forall todo, In todo L -> has_id todo i = false) ->
    (net (delete_request i) = Ok resp ->
     requests (trace net (deleteTodo s i)) = [delete_request i]
     /\ replay s (trace net (deleteTodo s i)) = s)
    /\ (net (toggle_request i c) = Ok resp -> json resp = Ok data ->
        requests (trace net (toggleTodo s i c)) = [toggle_request i c]
        /\ replay s (trace net (toggleTodo s i c)) = s).
Proof.
  intros s net L i c resp data Ht HL Habs. split.
  - intros Hn. rewrite (deleteTodo_run_resolved s net i resp L Hn Ht HL).
    split; [reflexivity|]. cbn. rewrite filter_all_kept.
    + rewrite <- Ht. apply state_eta.
    + intros x Hx. rewrite (Habs x Hx). reflexivity.
  - intros Hn Hj.
    rewrite (toggleTodo_run_updated s net i c resp data L Hn Hj Ht HL).
    split; [reflexivity|]. cbn. rewrite (map_none_replaced _ data L Habs).
    rewrite <- Ht. apply state_eta.
Qed.

Lemma unknown_id_changes_nothing_witness :
  replay bread_draft
    (trace (answering 404 not_found_body) (deleteTodo bread_draft (Num 7)))
  = bread_draft
  /\ replay bread_draft
       (trace (answering 404 not_found_body)
          (toggleTodo bread_draft (Num 7) (Bool false)))
     = bread_draft.
Proof.
  assert (Hunknown : forall todo, In todo [milk; eggs] ->
                                  has_id todo (Num 7) = false).
  { intros todo [H|[H|[]]]; subst todo; reflexivity. }
  destruct (unknown_id_changes_nothing bread_draft
              (answering 404 not_found_body) [milk; eggs] (Num 7)
              (Prim (Bool false))
              {| status := 404; json := Ok not_found_body |} not_found_body
              eq_refl eq_refl Hunknown)
    as [Hdelete Htoggle].
  destruct (Hdelete eq_refl) as [_ Hd].
  destruct (Htoggle eq_refl eq_refl) as [_ Ht].
  split; [exact Hd|exact Ht].
Defined.

Lemma has_id_coercible (todo : value) (i : prim) :
  has_id todo i = true -> coercible todo = true.
Proof.
  destruct todo as [[| |b|n|t]|elems|fields]; try reflexivity;
    unfold has_id; simpl; discriminate.
Qed.

(** X11.  Creating a record under an id the list does not hold yet and then
    deleting that id, each from the render of the state it finds, gives the
    list back as it was before the creation. *)
Theorem add_then_delete_restores_list :
  forall (s : state) (net : request -> result response)
         (L : list value) (i : prim)
         (created deleted : response) (data : value),
    blank (newTodo s) = false ->
    todos s = Arr L ->
    forallb coercible L = true ->
    (forall todo, In todo L -> has_id todo i = false) ->
    has_id data i = true ->
    net (add_request s) = Ok created ->
    json created = Ok data ->
    net (delete_request i) = Ok deleted ->
    let added := replay s (trace net (addTodo s)) in
    todos added = Arr (L ++ [data])
    /\ todos (replay added (trace net (deleteTodo added i))) = Arr L.
Proof.
  intros s net L i created deleted data Hb Ht HL Habs Hid Hadd Hj Hdel.
  cbv zeta.
  assert (Hi : iterate (todos s) = Ok L) by (rewrite Ht; reflexivity).
  rewrite (addTodo_run_created s net created data L Hb Hadd Hj Hi).
  cbn [replay fold_left apply todos newTodo loading].
  split; [reflexivity|].
  rewrite (deleteTodo_run_resolved
             {| todos := Arr (L ++ [data]); newTodo := [];
                loading := false |}
             net i deleted (L ++ [data]) Hdel eq_refl).
  - cbn. rewrite filter_app. simpl. rewrite Hid. simpl.
    rewrite app_nil_r, filter_all_kept; [reflexivity|].
    intros x Hx. rewrite (Habs x Hx). reflexivity.
  - rewrite forallb_app, HL. simpl.
    rewrite (has_id_coercible data i Hid). reflexivity.
Qed.

Lemma add_then_delete_restores_list_witness :
  todos (replay (replay bread_draft
                   (trace (answering 201 bread) (addTodo bread_draft)))
           (trace (answering 201 bread)
              (deleteTodo (replay bread_draft
                             (trace (answering 201 bread)
                                (addTodo bread_draft)))
                 (Num 3))))
  = Arr [milk; eggs].
Proof.
  assert (Hfresh : forall todo, In todo [milk; eggs] ->
                                has_id todo (Num 3) = false).
  { intros todo [H|[H|[]]]; subst todo; reflexivity. }
  exact (proj2 (add_then_delete_restores_list bread_draft
                  (answering 201 bread) [milk; eggs] (Num 3)
                  {| status := 201; json := Ok bread |}
                  {| status := 201; json := Ok bread |} bread
                  eq_refl eq_refl eq_refl Hfresh eq_refl eq_refl eq_refl
                  eq_refl)).
Defined.

(** Reading [todo.id] on the first [null] or [undefined] entry ends the
    callback of [map] and of [filter] with a [TypeError]. *)
Lemma array_map_first_null (id : prim) (updatedTodo : value) (L : list value) :
  forallb coercible L = false ->
  exists message,
    array_map (fun todo =>
                 bind (get todo (js "id")) (fun todo_id =>
                 Ok (if strict_eq todo_id id then updatedTodo else todo))) L
    = Throw (TypeError message).
Proof.
  induction L as [|todo L IH]; simpl; [discriminate|].
  intros H. apply andb_false_iff in H.
  destruct (coercible todo) eqn:Hc.
  - destruct H as [H|H]; [discriminate|]. destruct (IH H) as [message Hm].
    exists message. rewrite Hm.
    destruct todo as [[| |b|n|t]|elems|fields]; try discriminate; reflexivity.
  - destruct todo as [[| |b|n|t]|elems|fields]; try discriminate;
      eexists; reflexivity.
Qed.

Lemma array_filter_first_null (id : prim) (L : list value) :
  forallb coercible L = false ->
  exists message,
    array_filter (fun todo =>
                    bind (get todo (js "id")) (fun todo_id =>
                    Ok (negb (strict_eq todo_id id)))) L
    = Throw (TypeError message).
Proof.
  induction L as [|todo L IH]; simpl; [discriminate|].
  intros H. apply andb_false_iff in H.
  destruct (coercible todo) eqn:Hc.
  - destruct H as [H|H]; [discriminate|]. destruct (IH H) as [message Hm].
    exists message. rewrite Hm.
    destruct todo as [[| |b|n|t]|elems|fields]; try discriminate; reflexivity.
  - destruct todo as [[| |b|n|t]|elems|fields]; try discriminate;
      eexists; reflexivity.
Qed.

(** X12.  When the stored list is not an array, or holds a [null] entry,
    [toggleTodo] and [deleteTodo] still send their request, and once it is
    answered they log a [TypeError] and leave the state as it was: the server
    has been changed, the list has not. *)
Theorem malformed_list_blocks_update :
  forall (c s : state) (net : request -> result response)
         (id : prim) (completed : value) (resp : response) (data : value),
    well_formed (todos c) = false ->
    (net (toggle_request id completed) = Ok resp -> json resp = Ok data ->
     let tr := trace net (toggleTodo c id completed) in
     requests tr = [toggle_request id completed]
     /\ (exists message,
           logged tr = [("Error updating todo:", TypeError message)])
     /\ todos_updates tr = []
     /\ replay s tr = s)
    /\ (net (delete_request id) = Ok resp ->
        let tr := trace net (deleteTodo c id) in
        requests tr = [delete_request id]
        /\ (exists message,
              logged tr = [("Error deleting todo:", TypeError message)])
        /\ todos_updates tr = []
        /\ replay s tr = s).
Proof.
  intros c s net id completed resp data Hwf. split.
  - intros Hn Hj. cbv zeta.
    assert (Hthrow : exists message,
               method_map (todos c) (fun todo =>
                 bind (get todo (js "id")) (fun todo_id =>
                 Ok (if strict_eq todo_id id then data else todo)))
               = Throw (TypeError message)).
    { destruct (todos c) as [p|L|fields]; simpl in *;
        try (eexists; reflexivity).
      destruct (array_map_first_null id data L Hwf) as [message Hm].
      exists message. rewrite Hm. reflexivity. }
    destruct Hthrow as [message Hm].
    unfold toggleTodo. run_handler. rewrite Hn. run_handler. rewrite Hj.
    run_handler. rewrite Hm. cbn.
    repeat split. exists message. reflexivity.
  - intros Hn. cbv zeta.
    assert (Hthrow : exists message,
               method_filter (todos c) (fun todo =>
                 bind (get todo (js "id")) (fun todo_id =>
                 Ok (negb (strict_eq todo_id id))))
               = Throw (TypeError message)).
    { destruct (todos c) as [p|L|fields]; simpl in *;
        try (eexists; reflexivity).
      destruct (array_filter_first_null id L Hwf) as [message Hm].
      exists message. rewrite Hm. reflexivity. }
    destruct Hthrow as [message Hm].
    unfold deleteTodo. run_handler. rewrite Hn. run_handler.
    rewrite Hm. cbn.
    repeat split. exists message. reflexivity.
Qed.

Lemma malformed_list_blocks_update_witness :
  replay {| todos := Arr [milk; Prim Null]; newTodo := []; loading := false |}
    (trace (answering 204 (Prim Null))
       (deleteTodo {| todos := Arr [milk; Prim Null]; newTodo := [];
                      loading := false |} (Num 1)))
  = {| todos := Arr [milk; Prim Null]; newTodo := []; loading := false |}.
Proof.
  destruct (malformed_list_blocks_update
              {| todos := Arr [milk; Prim Null]; newTodo := [];
                 loading := false |}
              {| todos := Arr [milk; Prim Null]; newTodo := [];
                 loading := false |}
              (answering 204 (Prim Null)) (Num 1) (Prim Null)
              {| status := 204; json := Ok (Prim Null) |} (Prim Null)
              eq_refl)
    as [_ Hdelete].
  destruct (Hdelete eq_refl) as [_ [_ [_ Hstate]]].
  exact Hstate.
Defined.

(** X13.  [fetchTodos] stores an object when that is what the body parses to
    (an error report, say).  A create made from that state still posts the
    todo, but the list cannot be spread: a [TypeError] is logged, the object
    stays in place of the list, the typed text stays, and loading ends. *)
Theorem object_as_list_blocks_create :
  forall (s : state) (net : request -> result response)
         (fields : list (jsstring * value))
         (listed created : response) (data : value),
    net list_request = Ok listed ->
    json listed = Ok (Obj fields) ->
    blank (newTodo s) = false ->
    let mounted := replay s (trace net mount_effect) in
    mounted = {| todos := Obj fields; newTodo := newTodo s;
                 loading := loading s |}
    /\ (net (add_request mounted) = Ok created -> json created = Ok data ->
        let tr := trace net (addTodo mounted) in
        requests tr = [add_request mounted]
        /\ (exists message,
              logged tr = [("Error adding todo:", TypeError message)])
        /\ todos_updates tr = []
        /\ replay mounted tr =
           {| todos := Obj fields; newTodo := newTodo s; loading := false |}).
Proof.
  intros s net fields listed created data Hl Hj Hb. cbv zeta.
  unfold mount_effect.
  rewrite (fetchTodos_run_loaded net listed (Obj fields) Hl Hj).
  cbn [replay fold_left apply]. split; [reflexivity|].
  intros Hadd Hparsed.
  rewrite (addTodo_run_not_iterable
             {| todos := Obj fields; newTodo := newTodo s;
                loading := loading s |}
             net created data (TypeError "value is not iterable")
             Hb Hadd Hparsed eq_refl).
  cbn. repeat split. eexists. reflexivity.
Qed.

Lemma object_as_list_blocks_create_witness :
  replay (replay bread_draft (trace (answering 500 not_found_body) mount_effect))
    (trace (answering 500 not_found_body)
       (addTodo (replay bread_draft
                   (trace (answering 500 not_found_body) mount_effect))))
  = {| todos := not_found_body; newTodo := js "Buy bread"; loading := false |}.
Proof.
  destruct (object_as_list_blocks_create bread_draft
              (answering 500 not_found_body)
              [(js "detail", Prim (Str (js "Todo not found")))]
              {| status := 500; json := Ok not_found_body |}
              {| status := 500; json := Ok not_found_body |} not_found_body
              eq_refl eq_refl eq_refl)
    as [_ Hadd].
  destruct (Hadd eq_refl eq_refl) as [_ [_ [_ Hstate]]].
  exact Hstate.
Defined.

(** *** The rendered list *)

Lemma nonempty_length_not_zero (L : list value) :
  L <> [] ->
  strict_eq (Prim (Num (Z.of_nat (List.length L)))) (Num 0) = false.
Proof.
  intros HL. destruct L as [|x L]; [contradiction|].
  reflexivity.
Qed.

Lemma render_rows_well_formed (L : list value) :
  forallb coercible L = true ->
  exists items,
    render_rows L = Ok items
    /\ Forall2 (fun todo item =>
                  get todo (js "id") = Ok (row_key item)
                  /\ get todo (js "completed") = Ok (checkbox_checked item)
                  /\ get todo (js "title") = Ok (span_text item)
                  /\ span_className item
                     = (if truthy (checkbox_checked item)
                        then "completed" else "")
                  /\ onChange_call item
                     = (row_key item, checkbox_checked item)
                  /\ onClick_call item = row_key item)
         L items.
Proof.
  induction L as [|todo L IH]; simpl.
  - intros _. exists []. split; [reflexivity|constructor].
  - intros H. apply andb_prop in H. destruct H as [Hc HL].
    destruct (IH HL) as [items [Hr Hall]]. rewrite Hr.
    destruct todo as [[| |b|n|t]|elems|fields]; try discriminate;
      eexists; (split; [reflexivity|]); constructor; try exact Hall;
      repeat split.
Qed.

Lemma render_rows_first_null (L : list value) :
  forallb coercible L = false ->
  exists message, render_rows L = Throw (TypeError message).
Proof.
  induction L as [|todo L IH]; simpl; [discriminate|].
  intros H. apply andb_false_iff in H.
  destruct (coercible todo) eqn:Hc.
  - destruct H as [H|H]; [discriminate|]. destruct (IH H) as [message Hm].
    exists message. rewrite Hm.
    destruct todo as [[| |b|n|t]|elems|fields]; try discriminate; reflexivity.
  - destruct todo as [[| |b|n|t]|elems|fields]; try discriminate;
      eexists; reflexivity.
Qed.

(** X14.  A list without [null] entries is rendered row by row in the order
    of the state: the empty-state paragraph for the empty list, and otherwise
    one row per todo, keyed by [todo.id], its checkbox showing
    [todo.completed], its span showing [todo.title] under the class
    "completed" exactly when [todo.completed] is truthy, and its two closures
    passing on the todo's own id and completed flag. *)
Theorem list_rendered_row_by_row :
  forall (L : list value),
    forallb coercible L = true ->
    (L = [] -> render_list (Arr L) = Ok empty_state)
    /\ (L <> [] ->
        exists items,
          render_list (Arr L) = Ok (rows items)
          /\ Forall2 (fun todo item =>
                        get todo (js "id") = Ok (row_key item)
                        /\ get todo (js "completed")
                           = Ok (checkbox_checked item)
                        /\ get todo (js "title") = Ok (span_text item)
                        /\ span_className item
                           = (if truthy (checkbox_checked item)
                              then "completed" else "")
                        /\ onChange_call item
                           = (row_key item, checkbox_checked item)
                        /\ onClick_call item = row_key item)
               L items).
Proof.
  intros L HL. split.
  - intros HE. subst L. reflexivity.
  - intros HN. destruct (render_rows_well_formed L HL) as [items [Hr Hall]].
    exists items. split; [|exact Hall].
    unfold render_list. cbn [get_length bind].
    rewrite (nonempty_length_not_zero L HN), Hr. reflexivity.
Qed.

Example two_rows_rendered :
  render_list (Arr [milk; eggs])
  = Ok (rows [ {| row_key := Prim (Num 1);
                  checkbox_checked := Prim (Bool false);
                  span_className := "";
                  span_text := Prim (Str (js "Buy milk"));
                  onChange_call := (Prim (Num 1), Prim (Bool false));
                  onClick_call := Prim (Num 1) |};
               {| row_key := Prim (Num 2);
                  checkbox_checked := Prim (Bool true);
                  span_className := "completed";
                  span_text := Prim (Str (js "Buy eggs"));
                  onChange_call := (Prim (Num 2), Prim (Bool true));
                  onClick_call := Prim (Num 2) |} ]).
Proof. reflexivity. Qed.

Lemma list_rendered_row_by_row_witness :
  exists items,
    render_list (Arr [milk; eggs]) = Ok (rows items)
    /\ List.length items = 2.
Proof.
  destruct (list_rendered_row_by_row [milk; eggs] eq_refl) as [_ Hrows].
  destruct (Hrows ltac:(discriminate)) as [items [Hrender Hall]].
  exists items. split; [exact Hrender|].
  symmetry. exact (Forall2_length Hall).
Defined.

(** X15.  The record a create returns is stored unchecked: when the body of
    the answer parses to [null], the list gets a [null] entry and the next
    render throws a [TypeError] instead of returning a view. *)
Theorem null_body_breaks_render :
  forall (s : state) (net : request -> result response)
         (L : list value) (created : response),
    blank (newTodo s) = false ->
    todos s = Arr L ->
    net (add_request s) = Ok created ->
    json created = Ok (Prim Null) ->
    let next := replay s (trace net (addTodo s)) in
    todos next = Arr (L ++ [Prim Null])
    /\ exists message, render next = Throw (TypeError message).
Proof.
  intros s net L created Hb Ht Hn Hj. cbv zeta.
  assert (Hi : iterate (todos s) = Ok L) by (rewrite Ht; reflexivity).
  rewrite (addTodo_run_created s net created (Prim Null) L Hb Hn Hj Hi).
  cbn [replay fold_left apply todos newTodo loading].
  split; [reflexivity|].
  destruct (render_rows_first_null (L ++ [Prim Null])) as [message Hm].
  { rewrite forallb_app. simpl. apply andb_false_r. }
  exists message. unfold render, render_list.
  cbn [todos get_length bind].
  rewrite nonempty_length_not_zero, Hm; [reflexivity|].
  destruct L; discriminate.
Qed.

Lemma null_body_breaks_render_witness :
  todos (replay bread_draft
           (trace (answering 200 (Prim Null)) (addTodo bread_draft)))
  = Arr [milk; eggs; Prim Null].
Proof.
  exact (proj1 (null_body_breaks_render bread_draft
                  (answering 200 (Prim Null)) [milk; eggs]
                  {| status := 200; json := Ok (Prim Null) |}
                  eq_refl eq_refl eq_refl eq_refl)).
Defined.

Lemma prim_strict_eq_refl (p : prim) : prim_strict_eq p p = true.
Proof.
  destruct p as [| |b|n|t]; simpl; try reflexivity.
  - destruct b; reflexivity.
  - apply Z.eqb_refl.
  - apply jsstring_eqb_eq. reflexivity.
Qed.

Lemma map_replaces_single (hit : value -> bool) (u : value) :
  forall (L : list value) (k : nat) (x : value),
    nth_error L k = Some x ->
    hit x = true ->
    (forall k' y, nth_error L k' = Some y -> hit y = true -> k' = k) ->
    map (fun y => if hit y then u else y) L
    = (firstn k L ++ u :: skipn (S k) L)%list.
Proof.
  induction L as [|y L IH]; intros k x Hk Hx Huniq.
  - destruct k; discriminate.
  - destruct k as [|k].
    + simpl in Hk. inversion Hk; subst y. simpl. rewrite Hx. f_equal.
      apply map_none_replaced. intros z Hz.
      destruct (In_nth_error L z Hz) as [k' Hk'].
      destruct (hit z) eqn:Hhit; [|reflexivity].
      specialize (Huniq (S k') z Hk' Hhit). discriminate.
    + simpl in Hk. simpl.
      destruct (hit y) eqn:Hy.
      * specialize (Huniq 0 y eq_refl Hy). discriminate.
      * f_equal. apply (IH k x Hk Hx).
        intros k' z Hk' Hz. specialize (Huniq (S k') z Hk' Hz).
        inversion Huniq. reflexivity.
Qed.

Lemma filter_removes_single (hit : value -> bool) :
  forall (L : list value) (k : nat) (x : value),
    nth_error L k = Some x ->
    hit x = true ->
    (forall k' y, nth_error L k' = Some y -> hit y = true -> k' = k) ->
    filter (fun y => negb (hit y)) L = (firstn k L ++ skipn (S k) L)%list.
Proof.
  induction L as [|y L IH]; intros k x Hk Hx Huniq.
  - destruct k; discriminate.
  - destruct k as [|k].
    + simpl in Hk. inversion Hk; subst y. simpl. rewrite Hx. simpl.
      apply filter_all_kept. intros z Hz.
      destruct (In_nth_error L z Hz) as [k' Hk'].
      destruct (hit z) eqn:Hhit; [|reflexivity].
      specialize (Huniq (S k') z Hk' Hhit). discriminate.
    + simpl in Hk. simpl.
      destruct (hit y) eqn:Hy.
      * specialize (Huniq 0 y eq_refl Hy). discriminate.
      * simpl. f_equal. apply (IH k x Hk Hx).
        intros k' z Hk' Hz. specialize (Huniq (S k') z Hk' Hz).
        inversion Huniq. reflexivity.
Qed.

Lemma has_own_id (todo : value) (i : prim) :
  get todo (js "id") = Ok (Prim i) -> has_id todo i = true.
Proof.
  intros H. unfold has_id. rewrite H. simpl. apply prim_strict_eq_refl.
Qed.

(** X16.  Ticking the checkbox of the [k]-th row, whose todo has an id no
    other entry shares, calls [toggleTodo(todo.id, todo.completed)]; when the
    PUT is answered the list is the old one with the record returned in
    place [k], every other place as before. *)
Theorem checkbox_replaces_its_row :
  forall (s : state) (net : request -> result response)
         (L : list value) (k : nat) (todo : value)
         (i : prim) (c : value) (resp : response) (updatedTodo : value),
    todos s = Arr L ->
    forallb coercible L = true ->
    nth_error L k = Some todo ->
    get todo (js "id") = Ok (Prim i) ->
    get todo (js "completed") = Ok c ->
    (forall k' other,
        nth_error L k' = Some other -> has_id other i = true -> k' = k) ->
    net (toggle_request i c) = Ok resp ->
    json resp = Ok updatedTodo ->
    todos (replay s (trace net (toggleTodo s i c)))
    = Arr (firstn k L ++ updatedTodo :: skipn (S k) L)%list.
Proof.
  intros s net L k todo i c resp updatedTodo Ht HL Hk Hid _ Huniq Hn Hj.
  rewrite (toggleTodo_run_updated s net i c resp updatedTodo L Hn Hj Ht HL).
  cbn. f_equal.
  apply (map_replaces_single (fun y => has_id y i) updatedTodo L k todo Hk
           (has_own_id todo i Hid) Huniq).
Qed.

(** X17.  Pressing Delete on the [k]-th row, whose todo has an id no other
    entry shares, calls [deleteTodo(todo.id)]; when the DELETE is answered
    the list is the old one without place [k], the rest in order. *)
Theorem delete_button_removes_its_row :
  forall (s : state) (net : request -> result response)
         (L : list value) (k : nat) (todo : value)
         (i : prim) (resp : response),
    todos s = Arr L ->
    forallb coercible L = true ->
    nth_error L k = Some todo ->
    get todo (js "id") = Ok (Prim i) ->
    (forall k' other,
        nth_error L k' = Some other -> has_id other i = true -> k' = k) ->
    net (delete_request i) = Ok resp ->
    todos (replay s (trace net (deleteTodo s i)))
    = Arr (firstn k L ++ skipn (S k) L)%list.
Proof.
  intros s net L k todo i resp Ht HL Hk Hid Huniq Hn.
  rewrite (deleteTodo_run_resolved s net i resp L Hn Ht HL).
  cbn. f_equal.
  apply (filter_removes_single (fun y => has_id y i) L k todo Hk
           (has_own_id todo i Hid) Huniq).
Qed.

Lemma eggs_only_at_1 :
  forall k' other,
    nth_error [milk; eggs] k' = Some other ->
    has_id other (Num 2) = true -> k' = 1.
Proof.
  intros [|[|[|k']]] other Hk Hid; simpl in Hk;
    try discriminate; inversion Hk; subst other;
    try reflexivity; discriminate.
Qed.

Lemma checkbox_replaces_its_row_witness :
  todos (replay bread_draft
           (trace (answering 200 (todo_record 2 "Buy eggs" false))
              (toggleTodo bread_draft (Num 2) (Bool true))))
  = Arr [milk; todo_record 2 "Buy eggs" false].
Proof.
  exact (checkbox_replaces_its_row bread_draft
           (answering 200 (todo_record 2 "Buy eggs" false))
           [milk; eggs] 1 eggs (Num 2) (Prim (Bool true))
           {| status := 200; json := Ok (todo_record 2 "Buy eggs" false) |}
           (todo_record 2 "Buy eggs" false)
           eq_refl eq_refl eq_refl eq_refl eq_refl eggs_only_at_1
           eq_refl eq_refl).
Defined.

Lemma delete_button_removes_its_row_witness :
  todos (replay bread_draft
           (trace (answering 204 (Prim Null))
              (deleteTodo bread_draft (Num 2))))
  = Arr [milk].
Proof.
  exact (delete_button_removes_its_row bread_draft
           (answering 204 (Prim Null)) [milk; eggs] 1 eggs (Num 2)
           {| status := 204; json := Ok (Prim Null) |}
           eq_refl eq_refl eq_refl eq_refl eggs_only_at_1 eq_refl).
Defined.

(** ** The component of the OAuth variant *)

Import AuthApp.

Lemma URLSearchParams_get_absent (params : list (jsstring * jsstring))
  (name : jsstring) :
  has_param params name = false -> URLSearchParams_get params name = Null.
Proof.
  induction params as [|[k v] params IH]; simpl; [reflexivity|].
  destruct (jsstring_eqb k name); simpl; [discriminate|exact IH].
Qed.

Lemma URLSearchParams_get_present (params : list (jsstring * jsstring))
  (name : jsstring) :
  has_param params name = true ->
  exists v, URLSearchParams_get params name = Str v /\ In (name, v) params.
Proof.
  induction params as [|[k v] params IH]; simpl; [discriminate|].
  destruct (jsstring_eqb k name) eqn:Hk; simpl.
  - intros _. apply jsstring_eqb_eq in Hk. subst k. exists v. auto.
  - intros H. destruct (IH H) as [v' [Hget Hin]]. exists v'. auto.
Qed.

(** C7, as stated, fails at the address [/?token=]: the token parameter is
    present, yet [login] is not invoked. *)
Lemma empty_token_param_not_logged_in :
  ~ (has_param (search (window_location window_with_empty_token)) (js "token")
       = true ->
     exists token, logins (mount_effect window_with_empty_token) = [token]).
Proof.
  intros H. destruct (H eq_refl) as [token Hlogin]. discriminate Hlogin.
Qed.

(** C7, amended.  If the first token parameter of the URL has a non-empty
    value, the mount effect invokes [login] exactly once, with that value, and
    then calls [history.replaceState] with the path of the URL; when that
    path does not begin with two slashes, the call puts the path alone in the
    address bar, which leaves no query string (so no token parameter) and no
    fragment.  If the first token parameter has the empty value, or there is
    no token parameter, [login] is not invoked and the URL stays as it is. *)
Theorem login_iff_first_token_nonempty :
  forall (w : window),
    let params := search (window_location w) in
    (forall token,
        URLSearchParams_get params (js "token") = Str token ->
        token <> [] ->
        mount_effect w =
          [login (Str token);
           history_replaceState (Obj []) (document_title w)
             (pathname (window_location w))]
        /\ logins (mount_effect w) = [Str token]
        /\ (network_path (pathname (window_location w)) = false ->
            mount_completion w = Ok tt
            /\ window_location (after_mount w) =
               {| pathname := pathname (window_location w);
                  search := []; hash := [] |}
            /\ has_param (search (window_location (after_mount w)))
                 (js "token") = false))
    /\ (URLSearchParams_get params (js "token") = Str [] ->
        logins (mount_effect w) = [] /\ after_mount w = w)
    /\ (has_param params (js "token") = false ->
        logins (mount_effect w) = [] /\ after_mount w = w).
Proof.
  intros w. cbv zeta. unfold after_mount, mount_completion, mount_effect.
  split; [|split].
  - intros token Hget Hne. rewrite Hget.
    destruct token as [|c token]; [contradiction|].
    cbn [truthy truthy_prim logins perform_all perform bind].
    split; [reflexivity|]. split; [reflexivity|].
    intros Hpath. unfold resolve. rewrite Hpath. cbn. repeat split.
  - intros Hget. rewrite Hget. split; reflexivity.
  - intros Habs. rewrite (URLSearchParams_get_absent _ _ Habs).
    split; reflexivity.
Qed.

Lemma login_iff_first_token_nonempty_witness :
  logins (mount_effect window_after_redirect) = [Str (js "abc.def")]
  /\ window_location (after_mount window_after_redirect)
     = {| pathname := js "/"; search := []; hash := [] |}
  /\ after_mount window_with_empty_token = window_with_empty_token.
Proof.
  destruct (login_iff_first_token_nonempty window_after_redirect)
    as [Hlogin _].
  destruct (login_iff_first_token_nonempty window_with_empty_token)
    as [_ [Hempty _]].
  destruct (Hlogin (js "abc.def") eq_refl ltac:(discriminate))
    as [_ [Hcalls Hreplace]].
  destruct (Hreplace eq_refl) as [_ [Hurl _]].
  destruct (Hempty eq_refl) as [_ Hsame].
  split; [exact Hcalls|]. split; [exact Hurl|exact Hsame].
Defined.

(** The view follows the truthiness of [user] once loading is over. *)
Lemma AppContent_cases (ctx : auth) :
  AppContent ctx =
  if AuthApp.loading ctx then Loading_indicator
  else if truthy (user ctx) then TodoApp else Login.
Proof. reflexivity. Qed.

(** C10.  The view is determined by the auth state: the loading indicator
    while [loading] is true; otherwise, [user] being [null] or a user object,
    [TodoApp] exactly when [user] is not [null] and [Login] exactly when it
    is. *)
Theorem AppContent_view_by_auth_state :
  forall (ctx : auth),
    (user ctx = Prim Null \/ exists fields, user ctx = Obj fields) ->
    (AuthApp.loading ctx = true -> AppContent ctx = Loading_indicator)
    /\ (AuthApp.loading ctx = false ->
        (AppContent ctx = TodoApp <-> user ctx <> Prim Null)
        /\ (AppContent ctx = Login <-> user ctx = Prim Null)).
Proof.
  intros ctx Huser. rewrite AppContent_cases. split.
  - intros Hl. rewrite Hl. reflexivity.
  - intros Hl. rewrite Hl.
    destruct Huser as [Hnull|[fields Hobj]].
    + rewrite Hnull. simpl. repeat split; try discriminate; try reflexivity.
      intros Hne. contradiction.
    + rewrite Hobj. simpl. repeat split; try discriminate; try reflexivity.
Qed.

Lemma AppContent_view_by_auth_state_witness :
  AppContent {| user := alice; AuthApp.loading := false |} = TodoApp
  /\ AppContent {| user := Prim Null; AuthApp.loading := false |} = Login
  /\ AppContent {| user := alice; AuthApp.loading := true |}
     = Loading_indicator.
Proof.
  destruct (AppContent_view_by_auth_state
              {| user := alice; AuthApp.loading := false |}
              (or_intror (ex_intro _ _ eq_refl)))
    as [_ Hin].
  destruct (AppContent_view_by_auth_state
              {| user := Prim Null; AuthApp.loading := false |}
              (or_introl eq_refl))
    as [_ Hout].
  destruct (AppContent_view_by_auth_state
              {| user := alice; AuthApp.loading := true |}
              (or_intror (ex_intro _ _ eq_refl)))
    as [Hwait _].
  destruct (Hin eq_refl) as [[_ Htodo] _].
  destruct (Hout eq_refl) as [_ [_ Hlogin]].
  split; [apply Htodo; discriminate|].
  split; [apply Hlogin; reflexivity|apply Hwait; reflexivity].
Defined.

(** *** Further properties of the mount effect *)

(** The effect at [http://localhost//evil.example/x?token=abc]: [login] is
    invoked, then [replaceState] throws and the token stays in the URL. *)
Example foreign_path_run :
  logins (mount_effect window_at_foreign_path) = [Str (js "abc")]
  /\ mount_completion window_at_foreign_path
     = Throw (DOMException "SecurityError")
  /\ after_mount window_at_foreign_path = window_at_foreign_path.
Proof. repeat split. Qed.

(** The effect at [http://localhost//localhost/x?token=abc]: the path read as
    a reference names the document's own origin, and the URL becomes [/x]. *)
Example own_path_run :
  mount_completion window_at_own_path = Ok tt
  /\ window_location (after_mount window_at_own_path)
     = {| pathname := js "/x"; search := []; hash := [] |}.
Proof. repeat split. Qed.

(** The two runs of the effect. *)
Lemma mount_run_without_token (w : window) :
  truthy (URLSearchParams_get (search (window_location w)) (js "token"))
    = false ->
  mount_effect w = [] /\ perform_all w (mount_effect w) = (w, Ok tt).
Proof.
  intros Htoken. unfold mount_effect. rewrite Htoken. split; reflexivity.
Qed.

Lemma mount_run_with_token (w : window) :
  truthy (URLSearchParams_get (search (window_location w)) (js "token"))
    = true ->
  logins (mount_effect w)
    = [URLSearchParams_get (search (window_location w)) (js "token")]
  /\ perform_all w (mount_effect w)
     = match resolve w (pathname (window_location w)) with
       | Ok l => ({| window_location := l;
                     document_title := document_title w;
                     names_own_origin := names_own_origin w |}, Ok tt)
       | Throw e => (w, Throw e)
       end.
Proof.
  intros Htoken. unfold mount_effect. rewrite Htoken.
  split; [reflexivity|].
  cbn [perform_all perform bind].
  destruct (resolve w (pathname (window_location w))); reflexivity.
Qed.

(** A URL that [replaceState] accepted has no query string. *)
Lemma resolve_drops_query (w : window) (url : jsstring) (l : location) :
  resolve w url = Ok l -> search l = [].
Proof.
  unfold resolve. intros Hr.
  destruct (network_path url); [|inversion Hr; reflexivity].
  destruct (authority_of url) as [|a rest]; [discriminate|].
  destruct (names_own_origin w (a :: rest));
    [inversion Hr; reflexivity|discriminate].
Qed.

(** How the effect ends decides what it leaves. *)
Lemma mount_effect_ends (w : window) :
  (mount_completion w = Ok tt /\ mount_effect (after_mount w) = [])
  \/ (exists e token,
        mount_completion w = Throw e /\ after_mount w = w
        /\ logins (mount_effect w) = [token]).
Proof.
  unfold after_mount, mount_completion.
  destruct (truthy (URLSearchParams_get (search (window_location w))
                      (js "token"))) eqn:Htoken.
  - destruct (mount_run_with_token w Htoken) as [Hlogin Hrun].
    rewrite Hrun.
    destruct (resolve w (pathname (window_location w))) as [l|e] eqn:Hr.
    + left. cbn [fst snd]. split; [reflexivity|].
      unfold mount_effect. cbn [window_location].
      rewrite (resolve_drops_query w _ l Hr). reflexivity.
    + right. exists e. eexists. cbn [fst snd].
      split; [reflexivity|]. split; [reflexivity|exact Hlogin].
  - destruct (mount_run_without_token w Htoken) as [Hnone Hrun].
    rewrite Hrun. left. cbn [fst snd]. split; [reflexivity|exact Hnone].
Qed.

(** X18.  The mount effect is safe to run again exactly when it ran to its
    end: then a second run on the window it left invokes no [login] and
    changes nothing.  When [replaceState] threw, the window is as before the
    effect, token included, and a second run makes the same calls again,
    [login] first. *)
Theorem mount_effect_runs_once_per_token :
  forall (w : window),
    (mount_completion w = Ok tt ->
     mount_effect (after_mount w) = []
     /\ after_mount (after_mount w) = after_mount w)
    /\ (forall e,
          mount_completion w = Throw e ->
          after_mount w = w
          /\ mount_effect (after_mount w) = mount_effect w
          /\ exists token, logins (mount_effect w) = [token]).
Proof.
  intros w. destruct (mount_effect_ends w)
    as [[Hok Hnone]|[e [token [Hthrow [Hsame Hlogin]]]]].
  - split.
    + intros _. split; [exact Hnone|].
      unfold after_mount at 1. rewrite Hnone. reflexivity.
    + intros e He. rewrite Hok in He. discriminate.
  - split.
    + intros Hok. rewrite Hthrow in Hok. discriminate.
    + intros e' _. split; [exact Hsame|]. split.
      * rewrite Hsame. reflexivity.
      * exists token. exact Hlogin.
Qed.

Lemma mount_effect_runs_once_per_token_witness :
  mount_effect (after_mount window_after_redirect) = []
  /\ mount_effect (after_mount window_at_foreign_path)
     = mount_effect window_at_foreign_path.
Proof.
  destruct (mount_effect_runs_once_per_token window_after_redirect)
    as [Hdone _].
  destruct (mount_effect_runs_once_per_token window_at_foreign_path)
    as [_ Hthrown].
  destruct (Hdone eq_refl) as [Hnone _].
  destruct (Hthrown (DOMException "SecurityError") eq_refl)
    as [_ [Hagain _]].
  split; [exact Hnone|exact Hagain].
Defined.

(** X19.  Whatever the URL holds, the mount effect invokes [login] at most
    once and leaves the title of the document as it was; it leaves the path
    of the URL as it was whenever that path does not begin with two slashes,
    and whenever [replaceState] throws. *)
Theorem mount_effect_keeps_path_and_title :
  forall (w : window),
    List.length (logins (mount_effect w)) <= 1
    /\ document_title (after_mount w) = document_title w
    /\ (network_path (pathname (window_location w)) = false ->
        pathname (window_location (after_mount w))
        = pathname (window_location w))
    /\ (forall e,
          mount_completion w = Throw e ->
          pathname (window_location (after_mount w))
          = pathname (window_location w)).
Proof.
  intros w. unfold after_mount, mount_completion, mount_effect.
  destruct (truthy (URLSearchParams_get (search (window_location w))
                      (js "token"))).
  - cbn [logins List.length perform_all perform bind].
    destruct (resolve w (pathname (window_location w))) as [l|e] eqn:Hr.
    + cbn. split; [lia|]. split; [reflexivity|]. split.
      * intros Hpath. unfold resolve in Hr. rewrite Hpath in Hr.
        inversion Hr. reflexivity.
      * intros e He. discriminate.
    + cbn. split; [lia|]. repeat split.
  - cbn. split; [lia|]. repeat split.
Qed.

Lemma mount_effect_keeps_path_and_title_witness :
  pathname (window_location (after_mount window_after_redirect)) = js "/"
  /\ pathname (window_location (after_mount window_at_foreign_path))
     = js "//evil.example/x".
Proof.
  destruct (mount_effect_keeps_path_and_title window_after_redirect)
    as [_ [_ [Hplain _]]].
  destruct (mount_effect_keeps_path_and_title window_at_foreign_path)
    as [_ [_ [_ Hthrown]]].
  split.
  - exact (Hplain eq_refl).
  - exact (Hthrown (DOMException "SecurityError") eq_refl).
Defined.

(** X20.  At a URL whose path begins with two slashes and names another
    origin (or none), a non-empty token is handed to [login] and then
    [replaceState] throws a [SecurityError]: the effect ends with that
    exception and the URL, token included, is what it was. *)
Theorem foreign_path_keeps_token :
  forall (w : window) (token : jsstring),
    URLSearchParams_get (search (window_location w)) (js "token") = Str token ->
    token <> [] ->
    network_path (pathname (window_location w)) = true ->
    names_own_origin w (authority_of (pathname (window_location w))) = false ->
    logins (mount_effect w) = [Str token]
    /\ mount_completion w = Throw (DOMException "SecurityError")
    /\ after_mount w = w
    /\ has_param (search (window_location (after_mount w))) (js "token")
       = true.
Proof.
  intros w token Hget Hne Hpath Hforeign.
  assert (Hhas : has_param (search (window_location w)) (js "token") = true).
  { destruct (has_param (search (window_location w)) (js "token")) eqn:Hh;
      [reflexivity|].
    rewrite (URLSearchParams_get_absent _ _ Hh) in Hget. discriminate. }
  unfold after_mount, mount_completion, mount_effect. rewrite Hget.
  destruct token as [|c token]; [contradiction|].
  cbn [truthy truthy_prim logins perform_all perform bind].
  unfold resolve. rewrite Hpath.
  destruct (authority_of (pathname (window_location w))) as [|a authority];
    [|rewrite Hforeign]; cbn; repeat split; exact Hhas.
Qed.

Lemma foreign_path_keeps_token_witness :
  mount_completion window_at_foreign_path
  = Throw (DOMException "SecurityError")
  /\ after_mount window_at_foreign_path = window_at_foreign_path.
Proof.
  destruct (foreign_path_keeps_token window_at_foreign_path (js "abc")
              eq_refl ltac:(discriminate) eq_refl eq_refl)
    as [_ [Hthrow [Hsame _]]].
  split; [exact Hthrow|exact Hsame].
Defined.

(** X21.  At a URL whose path begins with two slashes and names the
    document's own origin, [replaceState] succeeds and the path changes: the
    URL left is the path after that authority, without query string or
    fragment. *)
Theorem own_path_is_rewritten :
  forall (w : window) (token : jsstring),
    URLSearchParams_get (search (window_location w)) (js "token") = Str token ->
    token <> [] ->
    network_path (pathname (window_location w)) = true ->
    authority_of (pathname (window_location w)) <> [] ->
    names_own_origin w (authority_of (pathname (window_location w))) = true ->
    logins (mount_effect w) = [Str token]
    /\ mount_completion w = Ok tt
    /\ window_location (after_mount w)
       = {| pathname := path_after_authority (pathname (window_location w));
            search := []; hash := [] |}.
Proof.
  intros w token Hget Hne Hpath Hauth Hown.
  unfold after_mount, mount_completion, mount_effect. rewrite Hget.
  destruct token as [|c token]; [contradiction|].
  cbn [truthy truthy_prim logins perform_all perform bind].
  unfold resolve. rewrite Hpath.
  destruct (authority_of (pathname (window_location w))) as [|a authority];
    [contradiction|].
  rewrite Hown. cbn. repeat split.
Qed.

Lemma own_path_is_rewritten_witness :
  window_location (after_mount window_at_own_path)
  = {| pathname := js "/x"; search := []; hash := [] |}.
Proof.
  destruct (own_path_is_rewritten window_at_own_path (js "abc")
              eq_refl ltac:(discriminate) eq_refl ltac:(discriminate) eq_refl)
    as [_ [_ Hurl]].
  exact Hurl.
Defined.
